(** * YACHT: genome-presence hypothesis recovery

    A shallow embedding of [srcs/hypothesis_recovery_src.py] and the
    properties of its four components: the overlap prefilter, the exclusive
    hash extractor, the hypothesis tester and the coverage sweep.

    Conventions of the embedding:
    - Python [int] is [Z]; a Python [set] of hashes is a [gset Z]; a Python
      [dict] keyed by hashes is a [gmap Z Z] iterated over its keys;
    - a Python [float] is a [pyfloat]: an exact rational or [NaN].  Finite
      arithmetic is carried out exactly: no rounding, no overflow, no
      infinity, and an [int] converts to a [float] exactly.  A statement
      that depends on a float result where the code rounds or overflows is
      made on arguments where the two agree, or leaves room for the
      rounding;
    - an exception is a value of [exc]; code that can raise returns in the
      error monad [result];
    - [scipy.stats.binom] is modelled by the binomial distribution itself,
      over exact rationals; [scipy.special.betaincinv] and the power with a
      fractional exponent have irrational values and stay parameters. *)

From Stdlib Require Import Ascii String ZArith QArith Qround Qpower Lia Lqa.
From stdpp Require Import base tactics decidable option list sets gmap strings.

Local Open Scope Z_scope.

(** * Part I: the program *)

(** ** Numbers and exceptions *)

(** A Python float: an exact rational, or not-a-number. *)
Inductive pyfloat := Finite (q : Q) | NaN.

(** The exceptions the code can raise. *)
Inductive exc := ZeroDivisionError | ValueError.

(** Outcome of a call: a value, or a raised exception. *)
Inductive result (A : Type) := Ok (a : A) | Raise (e : exc).
Arguments Ok {A} a.
Arguments Raise {A} e.

#[global] Instance result_ret : MRet result := λ A a, Ok a.
#[global] Instance result_bind : MBind result := λ A B f m,
  match m with Ok a => f a | Raise e => Raise e end.

(** [p.starmap(f, params)]: results in the order of the parameters; the first
    exception aborts the whole map. *)
Fixpoint starmap {A B : Type} (f : A → result B) (params : list A) : result (list B) :=
  match params with
  | [] => Ok []
  | x :: params' => y ← f x; ys ← starmap f params'; Ok (y :: ys)
  end.

Module Py.

Definition float_of_int (z : Z) : pyfloat := Finite (inject_Z z).

Definition float_add (x y : pyfloat) : pyfloat :=
  match x, y with Finite a, Finite b => Finite (a + b) | _, _ => NaN end.

Definition float_sub (x y : pyfloat) : pyfloat :=
  match x, y with Finite a, Finite b => Finite (a - b) | _, _ => NaN end.

Definition float_mul (x y : pyfloat) : pyfloat :=
  match x, y with Finite a, Finite b => Finite (a * b) | _, _ => NaN end.

(** [a / b] on two ints. *)
Definition int_truediv (a b : Z) : result pyfloat :=
  if decide (b = 0) then Raise ZeroDivisionError
  else Ok (Finite (inject_Z a / inject_Z b)).

(** [x ** k] for a float [x] and an int [k]. *)
Definition float_pow_int (x : pyfloat) (k : Z) : result pyfloat :=
  match x with
  | Finite q =>
      if Qeq_bool q 0 && (k <? 0) then Raise ZeroDivisionError
      else Ok (Finite (q ^ k))
  | NaN => Ok (if decide (k = 0) then Finite 1 else NaN)
  end.

(** [int(x)]: truncation towards zero; [int(nan)] raises. *)
Definition int_of_float (x : pyfloat) : result Z :=
  match x with
  | Finite q => Ok (Z.quot (Qnum q) (Z.pos (Qden q)))
  | NaN => Raise ValueError
  end.

(** [z >= x] for an int [z] and a float [x]: false on nan. *)
Definition int_ge_float (z : Z) (x : pyfloat) : bool :=
  match x with Finite q => Qle_bool q (inject_Z z) | NaN => false end.

(** [x != z] for a float [x] and an int [z]: true on nan. *)
Definition float_ne_int (x : pyfloat) (z : Z) : bool :=
  match x with Finite q => negb (Qeq_bool q (inject_Z z)) | NaN => true end.

(** [np.isnan]. *)
Definition isnan (x : pyfloat) : bool :=
  match x with NaN => true | Finite _ => false end.

(** The largest double below 1, [1 - 2^-53]: a double product whose exact
    value is at most this is rounded to a double below 1. *)
Definition below_one : Q := 1 - (1 # 9007199254740992).

End Py.

(** ** [scipy.stats.binom]

    The binomial distribution with [n] trials and success probability
    [p = a/b], in exact arithmetic: the probability of [k] successes is
    [weight n k / b^n], where the integer weights of [n+1] trials arise from
    those of [n] trials by one more Bernoulli trial. *)
Module binom.

(** One more trial: entry [k] of the new row is [(b - a)] times entry [k]
    plus [a] times entry [k - 1] of the row [r]; [x] stands in for the entry
    before the first. *)
Definition next_row (a b x : Z) (r : list Z) : list Z :=
  zip_with Z.add ((Z.mul (b - a) <$> r) ++ [0]) (x :: (Z.mul a <$> r)).

Fixpoint weights (n : nat) (a b : Z) : list Z :=
  match n with
  | O => [1]
  | S n' => next_row a b 0 (weights n' a b)
  end.

(** Sum of the entries [0..k] of a row. *)
Fixpoint cumulative (row : list Z) (k : nat) : Z :=
  match row with
  | [] => 0
  | w :: row' =>
      match k with
      | O => w
      | S k' => w + cumulative row' k'
      end
  end.

(** Sum of the entries below [k]. *)
Definition cumulative_below (row : list Z) (k : nat) : Z :=
  match k with O => 0 | S k' => cumulative row k' end.

(** The binomial coefficient, by Pascal's rule. *)
Fixpoint choose (n k : nat) : Z :=
  match n, k with
  | _, O => 1
  | O, S _ => 0
  | S n', S k' => choose n' k' + choose n' (S k')
  end.

Definition pow_den (d : positive) (n : nat) : positive :=
  Nat.iter n (Pos.mul d) 1%positive.

(** P(X = k) and P(X <= k) for X ~ Binomial(n, p). *)
Definition pmf_Q (k n : nat) (p : Q) : Q :=
  nth k (weights n (Qnum p) (Z.pos (Qden p))) 0 # pow_den (Qden p) n.

Definition cdf_Q (k n : nat) (p : Q) : Q :=
  cumulative (weights n (Qnum p) (Z.pos (Qden p))) k # pow_den (Qden p) n.

(** P(X < k). *)
Definition prob_fewer_than (k n : nat) (p : Q) : Q :=
  match k with O => 0 | S k' => cdf_Q k' n p end.

(** [binom._argcheck]. *)
Definition argcheck (n : Z) (p : Q) : bool :=
  (0 <=? n) && Qle_bool 0 p && Qle_bool p 1.

(** First [j] in [k, k + fuel) with [f j], else [k + fuel]. *)
Fixpoint least_from (f : nat → bool) (k fuel : nat) : nat :=
  match fuel with
  | O => k
  | S fuel' => if f k then k else least_from f (S k) fuel'
  end.

(** The quantile at level [q] in (0,1): least [k] with P(X <= k) >= q. *)
Definition ppf_nat (q : Q) (n : nat) (p : Q) : nat :=
  least_from (λ k, Qle_bool q (cdf_Q k n p)) 0 n.

(** [binom.ppf(q, n, p)], with the boundary levels of [rv_discrete.ppf]:
    nan for parameters outside the distribution's domain, whatever the
    level; else one below the support at [q = 0] and the top of the support
    at [q = 1]. *)
Definition ppf (q : pyfloat) (n : Z) (p : pyfloat) : pyfloat :=
  match q, p with
  | Finite q', Finite p' =>
      if negb (argcheck n p') then NaN
      else if Qeq_bool q' 0 then Finite (inject_Z (-1))
      else if Qeq_bool q' 1 then Finite (inject_Z n)
      else if Qle_bool 0 q' && Qle_bool q' 1 then
        Finite (inject_Z (Z.of_nat (ppf_nat q' (Z.to_nat n) p')))
      else NaN
  | _, _ => NaN
  end.

(** [binom.cdf(k, n, p)]: 1 at and above [n], 0 below 0, nan for invalid
    parameters or a nan argument, else P(X <= floor k). *)
Definition cdf (k : pyfloat) (n : Z) (p : pyfloat) : pyfloat :=
  match k, p with
  | Finite k', Finite p' =>
      if negb (argcheck n p') then NaN
      else if Qle_bool (inject_Z n) k' then Finite 1
      else if negb (Qle_bool 0 k') then Finite 0
      else Finite (cdf_Q (Z.to_nat (Qfloor k')) (Z.to_nat n) p')
  | _, _ => NaN
  end.

End binom.

(** ** Data model *)

(** One row of the reference manifest, with the columns the docstrings list. *)
Record manifest_row := {
  organism_name : string;
  md5sum : string;
  num_unique_kmers_in_genome_sketch : Z;
  num_total_kmers_in_genome_sketch : Z;
  genome_scale_factor : Z;
  num_exclusive_kmers_in_sample_sketch : Z;
  num_total_kmers_in_sample_sketch : Z;
  sample_scale_factor : Z;
  min_coverage : pyfloat
}.

(** [sig.minhash.hashes]: a dict from hash value to abundance. *)
Record MinHash := { hashes : gmap Z Z }.
Record SourmashSignature := { minhash : MinHash }.

(** Iterating over a dict yields its keys, each once. *)
Definition dict_keys (d : gmap Z Z) : list Z := (map_to_list d).*1.

(** [os.path.join] on two components (POSIX). *)
Definition starts_with_slash (s : string) : bool :=
  match s with
  | String c _ => bool_decide (c = "/"%char)
  | EmptyString => false
  end.

Fixpoint ends_with_slash (s : string) : bool :=
  match s with
  | EmptyString => false
  | String c EmptyString => bool_decide (c = "/"%char)
  | String _ s' => ends_with_slash s'
  end.

Definition path_join (a b : string) : string :=
  if starts_with_slash b then b
  else if bool_decide (a = ""%string) || ends_with_slash a then (a +:+ b)%string
  else (a +:+ "/" +:+ b)%string.

Definition signature_path (path_to_temp_dir md5 : string) : string :=
  path_join (path_join path_to_temp_dir "signatures") (md5 +:+ ".sig.gz").

(** ** Exclusive hash extractor: [get_exclusive_hashes] *)

Module Exclusive.
Section extractor.

(** [utils.load_signature_with_ksize] reads a signature file; the file
    system it reads from is a parameter of the development. *)
Variable load_signature_with_ksize : string → Z → SourmashSignature.

Definition sketch_hashes (path_to_temp_dir md5 : string) (ksize : Z) : list Z :=
  dict_keys (hashes (minhash
    (load_signature_with_ksize (signature_path path_to_temp_dir md5) ksize))).

(** The pair [(single_occurrence_hashes, multiple_occurrence_hashes)]. *)
Definition occurrences : Type := gset Z * gset Z.

(** Body of the inner loop, lines 108-114. *)
Definition scan_hash (st : occurrences) (hash : Z) : occurrences :=
  let '(single_occurrence_hashes, multiple_occurrence_hashes) := st in
  if decide (hash ∈ multiple_occurrence_hashes) then st
  else if decide (hash ∈ single_occurrence_hashes) then
    (single_occurrence_hashes ∖ {[hash]}, multiple_occurrence_hashes ∪ {[hash]})
  else
    (single_occurrence_hashes ∪ {[hash]}, multiple_occurrence_hashes).

Definition scan_sketch (st : occurrences) (sketch : list Z) : occurrences :=
  foldl scan_hash st sketch.

(** The first pass, lines 103-114: both sets after all candidates. *)
Definition first_pass (organism_md5sum_list : list string)
    (ksize : Z) (path_to_genome_temp_dir : string) : occurrences :=
  foldl (λ st md5, scan_sketch st (sketch_hashes path_to_genome_temp_dir md5 ksize))
        (∅, ∅) organism_md5sum_list.

(** [__find_exclusive_hashes], lines 94-97. *)
Definition find_exclusive_hashes (md5 path_to_temp_dir : string) (ksize : Z)
    (single_occurrence_hashes : gset Z) : gset Z :=
  list_to_set
    (filter (λ hash, hash ∈ single_occurrence_hashes)
            (sketch_hashes path_to_temp_dir md5 ksize)).

(** [manifest.loc[manifest['organism_name'].isin(names), :]], line 100. *)
Definition sub_manifest_of (manifest : list manifest_row)
    (nontrivial_organism_names : list string) : list manifest_row :=
  filter (λ r, organism_name r ∈ nontrivial_organism_names) manifest.

Definition get_exclusive_hashes (manifest : list manifest_row)
    (nontrivial_organism_names : list string) (sample_sig : SourmashSignature)
    (ksize : Z) (path_to_genome_temp_dir : string)
    : list (Z * Z) * list manifest_row :=
  let sub_manifest := sub_manifest_of manifest nontrivial_organism_names in
  let organism_md5sum_list := md5sum <$> sub_manifest in
  let single_occurrence_hashes :=
    (first_pass organism_md5sum_list ksize path_to_genome_temp_dir).1 in
  let exclusive_hashes_org :=
    (λ md5, find_exclusive_hashes md5 path_to_genome_temp_dir ksize
              single_occurrence_hashes) <$> organism_md5sum_list in
  let sample_hashes : gset Z :=
    list_to_set (dict_keys (hashes (minhash sample_sig))) in
  let exclusive_hashes_info :=
    (λ exclusive_hashes : gset Z,
       (Z.of_nat (size exclusive_hashes),
        Z.of_nat (size (exclusive_hashes ∩ sample_hashes))))
    <$> exclusive_hashes_org in
  (exclusive_hashes_info, sub_manifest).

(** *** Counting occurrences in the stream of scanned hashes *)

(** Number of times [h] was scanned so far. *)
Definition occ (h : Z) (stream : list Z) : nat :=
  length (filter (λ x, x = h) stream).

(** The loop invariant of the first pass: [seen-once] holds the hashes
    scanned exactly once, [seen-multiple] those scanned at least twice. *)
Definition scanned (stream : list Z) (st : occurrences) : Prop :=
  ∀ h, (h ∈ st.1 ↔ occ h stream = 1%nat) ∧ (h ∈ st.2 ↔ (2 ≤ occ h stream)%nat).

(** All hashes in the order the first pass scans them. *)
Fixpoint hash_stream (md5s : list string) (ksize : Z) (dir : string) : list Z :=
  match md5s with
  | [] => []
  | md5 :: md5s => sketch_hashes dir md5 ksize ++ hash_stream md5s ksize dir
  end.

(** Number of candidates whose sketch holds [h]. *)
Definition candidates_with (h : Z) (md5s : list string) (ksize : Z) (dir : string) : nat :=
  length (filter (λ md5, h ∈ sketch_hashes dir md5 ksize) md5s).

End extractor.
End Exclusive.

(** ** Hypothesis tester: [get_alt_mut_rate] and [single_hyp_test] *)

(** The tuple [single_hyp_test] returns, field names as in [given_columns]. *)
Record hyp_test_result := {
  in_sample_est : bool;
  p_vals : pyfloat;
  num_exclusive_kmers_to_genome : Z;
  num_exclusive_kmers_to_genome_coverage : Z;
  num_matches : Z;
  acceptance_threshold_with_coverage : pyfloat;
  actual_confidence_with_coverage : pyfloat;
  alt_confidence_mut_rate_with_coverage : pyfloat
}.

Module Tester.
Section tester.

(** [scipy.special.betaincinv(a, b, y)]. *)
Variable betaincinv : pyfloat → pyfloat → pyfloat → pyfloat.

(** [x ** y] on a numpy float and a float exponent. *)
Variable float_pow : pyfloat → pyfloat → pyfloat.

Definition get_alt_mut_rate (nu : Z) (thresh : pyfloat) (ksize : Z)
    (significance : pyfloat) : result pyfloat :=
  let inv := betaincinv (Py.float_sub (Py.float_of_int nu) thresh)
                        (Py.float_add (Py.float_of_int 1) thresh)
                        significance in
  exponent ← Py.int_truediv 1 ksize;
  let mut :=
    Py.float_sub (Py.float_of_int 1)
      (float_pow (Py.float_sub (Py.float_of_int 1) inv) exponent) in
  Ok (if Py.isnan mut then Finite (inject_Z (-1)) else mut).

Definition single_hyp_test (exclusive_hashes_info_org : Z * Z) (ksize : Z)
    (significance ani_thresh min_coverage : pyfloat) : result hyp_test_result :=
  let num_exclusive_kmers := exclusive_hashes_info_org.1 in
  non_mut_p ← Py.float_pow_int ani_thresh ksize;
  num_exclusive_kmers_coverage ←
    Py.int_of_float (Py.float_mul (Py.float_of_int num_exclusive_kmers) min_coverage);
  let acceptance_threshold :=
    binom.ppf (Py.float_sub (Py.float_of_int 1) significance)
              num_exclusive_kmers_coverage non_mut_p in
  let actual_confidence :=
    Py.float_sub (Py.float_of_int 1)
      (binom.cdf acceptance_threshold num_exclusive_kmers_coverage non_mut_p) in
  alt_confidence_mut_rate ←
    get_alt_mut_rate num_exclusive_kmers_coverage acceptance_threshold ksize significance;
  let num_matches := exclusive_hashes_info_org.2 in
  let p_val := binom.cdf (Py.float_of_int num_matches) num_exclusive_kmers non_mut_p in
  let in_sample_est :=
    Py.int_ge_float num_matches acceptance_threshold
    && negb (num_matches =? 0)
    && Py.float_ne_int acceptance_threshold 0 in
  Ok {| in_sample_est := in_sample_est;
        p_vals := p_val;
        num_exclusive_kmers_to_genome := num_exclusive_kmers;
        num_exclusive_kmers_to_genome_coverage := num_exclusive_kmers_coverage;
        num_matches := num_matches;
        acceptance_threshold_with_coverage := acceptance_threshold;
        actual_confidence_with_coverage := actual_confidence;
        alt_confidence_mut_rate_with_coverage := alt_confidence_mut_rate |}.

End tester.
End Tester.

(** ** Overlap prefilter: [get_organisms_with_nonzero_overlap] *)

(** [DataFrame.drop_duplicates()]: the first of each group of equal rows
    stays, in order. *)
Fixpoint drop_duplicates_from {A : Type} `{EqDecision A} (seen l : list A) : list A :=
  match l with
  | [] => []
  | x :: l' =>
      if decide (x ∈ seen) then drop_duplicates_from seen l'
      else x :: drop_duplicates_from (x :: seen) l'
  end.

Definition drop_duplicates {A : Type} `{EqDecision A} (l : list A) : list A :=
  drop_duplicates_from [] l.

(** A row of the multisearch result: the [match_name] column and the cells
    of the other columns. *)
Record multisearch_row (Cell : Type) := {
  match_name : string;
  other_columns : list Cell
}.
Arguments match_name {Cell} _.
Arguments other_columns {Cell} _.

#[global] Instance multisearch_row_eq_dec {Cell : Type} `{EqDecision Cell} :
  EqDecision (multisearch_row Cell).
Proof. solve_decision. Defined.

Module Prefilter.
Section prefilter.

Context {Cell : Type} `{EqDecision Cell}.

(** Names of the signature files the sample zip unpacks to. *)
Variable zip_signature_files : string → list string.

(** The external [sourmash scripts multisearch] run on the two staged file
    lists with scale, k-mer size and thread count: its exit status and the
    result table as [pd.read_csv] parses it. *)
Variable sourmash_multisearch :
  list string → list string → Z → Z → Z → Z * list (multisearch_row Cell).

Definition get_organisms_with_nonzero_overlap (manifest : list manifest_row)
    (sample_file : string) (scale ksize num_threads : Z)
    (path_to_genome_temp_dir path_to_sample_temp_dir : string) : result (list string) :=
  let sample_sig_file :=
    (λ sig_file, path_join (path_join path_to_sample_temp_dir "signatures") sig_file)
    <$> zip_signature_files sample_file in
  let organism_sig_file :=
    (λ r, signature_path path_to_genome_temp_dir (md5sum r)) <$> manifest in
  let '(exit_code, multisearch_result) :=
    sourmash_multisearch sample_sig_file organism_sig_file scale ksize num_threads in
  if decide (exit_code ≠ 0) then Raise ValueError
  else
    let multisearch_result := drop_duplicates multisearch_result in
    Ok (match_name <$> multisearch_result).

End prefilter.
End Prefilter.

(** ** Coverage sweep: [hypothesis_recovery] *)

(** [os.path.dirname], [os.path.basename] and [str.replace] (the pattern is
    never empty here). *)
Fixpoint rsplit_slash (s : string) : option (string * string) :=
  match s with
  | EmptyString => None
  | String c s' =>
      match rsplit_slash s' with
      | Some (h, t) => Some (String c h, t)
      | None => if bool_decide (c = "/"%char) then Some ("/"%string, s') else None
      end
  end.

Fixpoint rstrip_slash (s : string) : string :=
  match s with
  | EmptyString => EmptyString
  | String c s' =>
      let r := rstrip_slash s' in
      if bool_decide (r = ""%string) && bool_decide (c = "/"%char) then EmptyString
      else String c r
  end.

Definition dirname (p : string) : string :=
  match rsplit_slash p with
  | Some (head, _) =>
      if bool_decide (rstrip_slash head = ""%string) then head else rstrip_slash head
  | None => EmptyString
  end.

Definition basename (p : string) : string :=
  match rsplit_slash p with
  | Some (_, tail) => tail
  | None => p
  end.

Fixpoint drop_chars (n : nat) (s : string) : string :=
  match n, s with
  | S n', String _ s' => drop_chars n' s'
  | _, _ => s
  end.

Fixpoint replace_fuel (fuel : nat) (old new s : string) : string :=
  match fuel with
  | O => s
  | S fuel' =>
      match s with
      | EmptyString => EmptyString
      | String c s' =>
          if String.prefix old s then
            (new +:+ replace_fuel fuel' old new (drop_chars (String.length old) s))%string
          else String c (replace_fuel fuel' old new s')
      end
  end.

Definition str_replace (s old new : string) : string :=
  replace_fuel (String.length s) old new s.

Definition sample_temp_dir (sample_file : string) : string :=
  let sample_dir := dirname sample_file in
  let sample_name := str_replace (basename sample_file) ".sig.zip" "" in
  path_join sample_dir ("sample_" +:+ sample_name +:+ "_intermediate_files").

(** [manifest['min_coverage'] = min_coverage]: the column is overwritten in
    every row. *)
Definition set_min_coverage (c : pyfloat) (r : manifest_row) : manifest_row :=
  {| organism_name := organism_name r;
     md5sum := md5sum r;
     num_unique_kmers_in_genome_sketch := num_unique_kmers_in_genome_sketch r;
     num_total_kmers_in_genome_sketch := num_total_kmers_in_genome_sketch r;
     genome_scale_factor := genome_scale_factor r;
     num_exclusive_kmers_in_sample_sketch := num_exclusive_kmers_in_sample_sketch r;
     num_total_kmers_in_sample_sketch := num_total_kmers_in_sample_sketch r;
     sample_scale_factor := sample_scale_factor r;
     min_coverage := c |}.

(** A row of an output table: the manifest columns followed by the columns
    of the test result. *)
Record result_row := {
  manifest_columns : manifest_row;
  test_columns : hyp_test_result
}.

(** [pd.concat([manifest, results], axis=1)] on two frames with the same
    index [0..n-1]: a fresh frame, row [i] of one next to row [i] of the
    other. *)
Definition concat_columns (manifest : list manifest_row)
    (results : list hyp_test_result) : list result_row :=
  zip_with Build_result_row manifest results.

(** A loop whose body can raise. *)
Fixpoint for_each {S A : Type} (body : S → A → result S) (st : S) (l : list A)
    : result S :=
  match l with
  | [] => Ok st
  | x :: l' => st' ← body st x; for_each body st' l'
  end.

Module Sweep.
Section sweep.

Context {Cell : Type} `{EqDecision Cell}.
Variable load_signature_with_ksize : string → Z → SourmashSignature.
Variable betaincinv : pyfloat → pyfloat → pyfloat → pyfloat.
Variable float_pow : pyfloat → pyfloat → pyfloat.
Variable zip_signature_files : string → list string.
Variable sourmash_multisearch :
  list string → list string → Z → Z → Z → Z * list (multisearch_row Cell).

(** State of the loop of lines 284-296: the manifest frame, whose
    [min_coverage] column each round overwrites, and [manifest_list]. *)
Definition sweep_state : Type := list manifest_row * list (list result_row).

(** One round of the loop. [Pool(processes=num_threads)] raises for fewer
    than one process. *)
Definition sweep_body (exclusive_hashes_info : list (Z * Z)) (ksize : Z)
    (significance ani_thresh : pyfloat) (num_threads : Z)
    (st : sweep_state) (min_coverage : pyfloat) : result sweep_state :=
  let '(manifest, manifest_list) := st in
  if decide (num_threads < 1) then Raise ValueError
  else
    results ← starmap
      (λ info, Tester.single_hyp_test betaincinv float_pow info ksize
                 significance ani_thresh min_coverage)
      exclusive_hashes_info;
    let manifest := set_min_coverage min_coverage <$> manifest in
    Ok (manifest, manifest_list ++ [concat_columns manifest results]).

Definition hypothesis_recovery (manifest : list manifest_row)
    (sample_info_set : string * SourmashSignature)
    (path_to_genome_temp_dir : string) (min_coverage_list : list pyfloat)
    (scale ksize : Z) (significance ani_thresh : pyfloat) (num_threads : Z)
    : result (list (list result_row)) :=
  let '(sample_file, sample_sig) := sample_info_set in
  let path_to_sample_temp_dir := sample_temp_dir sample_file in
  nontrivial_organism_names ←
    Prefilter.get_organisms_with_nonzero_overlap zip_signature_files
      sourmash_multisearch manifest sample_file scale ksize num_threads
      path_to_genome_temp_dir path_to_sample_temp_dir;
  let '(exclusive_hashes_info, manifest) :=
    Exclusive.get_exclusive_hashes load_signature_with_ksize manifest
      nontrivial_organism_names sample_sig ksize path_to_genome_temp_dir in
  st ← for_each
         (sweep_body exclusive_hashes_info ksize significance ani_thresh num_threads)
         (manifest, []) min_coverage_list;
  Ok st.2.

(** The table one round of the loop appends, as a function of the
    coverage value, the candidate rows and their pairs of counts. *)
Definition coverage_table (exclusive_hashes_info : list (Z * Z))
    (manifest : list manifest_row) (ksize : Z) (significance ani_thresh : pyfloat)
    (num_threads : Z) (min_coverage : pyfloat) : result (list result_row) :=
  if decide (num_threads < 1) then Raise ValueError
  else
    results ← starmap
      (λ info, Tester.single_hyp_test betaincinv float_pow info ksize
                 significance ani_thresh min_coverage)
      exclusive_hashes_info;
    Ok (concat_columns (set_min_coverage min_coverage <$> manifest) results).

(** The candidate set of a run: the manifest rows of the genomes the
    prefilter returns (line 100); empty when the prefilter fails. *)
Definition candidate_set (manifest : list manifest_row) (sample_file : string)
    (path_to_genome_temp_dir : string) (scale ksize num_threads : Z)
    : list manifest_row :=
  match Prefilter.get_organisms_with_nonzero_overlap zip_signature_files
          sourmash_multisearch manifest sample_file scale ksize num_threads
          path_to_genome_temp_dir (sample_temp_dir sample_file) with
  | Ok nontrivial_organism_names =>
      Exclusive.sub_manifest_of manifest nontrivial_organism_names
  | Raise _ => []
  end.

(** The pairs of counts of a run, one per candidate (line 264); empty when
    the prefilter fails. *)
Definition exclusive_info (manifest : list manifest_row) (sample_file : string)
    (sample_sig : SourmashSignature) (path_to_genome_temp_dir : string)
    (scale ksize num_threads : Z) : list (Z * Z) :=
  match Prefilter.get_organisms_with_nonzero_overlap zip_signature_files
          sourmash_multisearch manifest sample_file scale ksize num_threads
          path_to_genome_temp_dir (sample_temp_dir sample_file) with
  | Ok nontrivial_organism_names =>
      (Exclusive.get_exclusive_hashes load_signature_with_ksize manifest
         nontrivial_organism_names sample_sig ksize path_to_genome_temp_dir).1
  | Raise _ => []
  end.

(** What the external search returns for the call a run makes (lines
    47-58): exit status and result table. *)
Definition search_outcome (manifest : list manifest_row) (sample_file : string)
    (path_to_genome_temp_dir : string) (scale ksize num_threads : Z)
    : Z * list (multisearch_row Cell) :=
  sourmash_multisearch
    ((λ sig_file,
        path_join (path_join (sample_temp_dir sample_file) "signatures") sig_file)
     <$> zip_signature_files sample_file)
    ((λ r, signature_path path_to_genome_temp_dir (md5sum r)) <$> manifest)
    scale ksize num_threads.

End sweep.

(** *** Reading the tables back: concatenation and grouping by coverage *)

Definition coverage_of (row : result_row) : pyfloat :=
  min_coverage (manifest_columns row).

(** Equality of two coverage values as floats compare. *)
Definition same_coverage (x y : pyfloat) : bool :=
  match x, y with
  | Finite a, Finite b => Qeq_bool a b
  | _, _ => false
  end.

Fixpoint group_insert (key : pyfloat) (row : result_row)
    (groups : list (pyfloat * list result_row)) : list (pyfloat * list result_row) :=
  match groups with
  | [] => [(key, [row])]
  | (k, rows) :: groups' =>
      if same_coverage k key then (k, rows ++ [row]) :: groups'
      else (k, rows) :: group_insert key row groups'
  end.

(** Grouping the rows of the concatenated tables by their coverage value:
    one group per distinct value, groups in order of first appearance, rows
    of a group in their order. *)
Definition group_by_coverage (rows : list result_row)
    : list (pyfloat * list result_row) :=
  foldl (λ groups row, group_insert (coverage_of row) row groups) [] rows.

(** A coverage fraction: a number in (0, 1]. *)
Definition coverage_fraction (c : pyfloat) : Prop :=
  match c with
  | Finite q => (0 < q)%Q ∧ (q <= 1)%Q
  | NaN => False
  end.

(** No two coverage values of the list are equal. *)
Fixpoint distinct_coverages (l : list pyfloat) : Prop :=
  match l with
  | [] => True
  | c :: l' => Forall (λ c', same_coverage c c' = false) l' ∧ distinct_coverages l'
  end.

End Sweep.

(** ** Concrete inputs used to exercise the definitions *)

Module Demo.

Definition row (name md5 : string) : manifest_row :=
  {| organism_name := name; md5sum := md5;
     num_unique_kmers_in_genome_sketch := 3;
     num_total_kmers_in_genome_sketch := 3;
     genome_scale_factor := 1000;
     num_exclusive_kmers_in_sample_sketch := 0;
     num_total_kmers_in_sample_sketch := 0;
     sample_scale_factor := 1000;
     min_coverage := Finite 1 |}.

Definition sketch_of (hs : list Z) : SourmashSignature :=
  {| minhash := {| hashes := list_to_map ((λ h, (h, 1)) <$> hs) |} |}.

(** Three genomes: A = {1,2,3}, B = {3,4}, C = {3,4,5}. *)
Definition load (path : string) (ksize : Z) : SourmashSignature :=
  if bool_decide (path = "g/signatures/a.sig.gz"%string) then sketch_of [1; 2; 3]
  else if bool_decide (path = "g/signatures/b.sig.gz"%string) then sketch_of [3; 4]
  else sketch_of [3; 4; 5].

Definition manifest : list manifest_row :=
  [row "A" "a"; row "B" "b"; row "C" "c"].

Definition sample : SourmashSignature := sketch_of [1; 2; 5; 9].

End Demo.

(** ** Stand-ins for the two numerical routines, for running examples *)

Module Numeric.

(** [betaincinv(a, b, y)] where it is rational: nan on parameters outside
    the domain, [y] at [a = b = 1]; nan (not modelled) elsewhere. *)
Definition betaincinv (a b y : pyfloat) : pyfloat :=
  match a, b, y with
  | Finite a', Finite b', Finite y' =>
      if Qeq_bool a' 1 && Qeq_bool b' 1 && Qle_bool 0 y' && Qle_bool y' 1
      then Finite y' else NaN
  | _, _, _ => NaN
  end.

(** [x ** y] where it is rational: exponents 0 and 1; nan elsewhere. *)
Definition float_pow (x y : pyfloat) : pyfloat :=
  match y with
  | Finite y' =>
      if Qeq_bool y' 0 then Finite 1
      else match x with
           | Finite x' => if Qeq_bool y' 1 then Finite x' else NaN
           | NaN => NaN
           end
  | NaN => NaN
  end.

End Numeric.

(** ** A stand-in for the external search, for running examples *)

Module Tool.

Definition zip_signature_files (sample_file : string) : list string :=
  ["q1.sig.gz"; "q2.sig.gz"]%string.

Definition hit (query name : string) : multisearch_row string :=
  {| match_name := name; other_columns := [query] |}.

(** Two query signatures; genome A matches both, genome C the first, and
    the first match is reported twice. *)
Definition sourmash_multisearch (queries against : list string)
    (scale ksize num_threads : Z) : Z * list (multisearch_row string) :=
  (0, [hit "q1" "A"; hit "q1" "C"; hit "q1" "A"; hit "q2" "A"]).

(** One query signature: each genome matches at most once. *)
Definition sourmash_multisearch_single (queries against : list string)
    (scale ksize num_threads : Z) : Z * list (multisearch_row string) :=
  (0, [hit "q1" "A"; hit "q1" "C"; hit "q1" "A"]).

(** No genome matches. *)
Definition sourmash_multisearch_no_hit (queries against : list string)
    (scale ksize num_threads : Z) : Z * list (multisearch_row string) :=
  (0, []).

(** The tool fails. *)
Definition sourmash_multisearch_failing (queries against : list string)
    (scale ksize num_threads : Z) : Z * list (multisearch_row string) :=
  (256, []).

End Tool.

(** * Part II: properties *)

(** ** Exclusive hash extractor *)

Section extractor_facts.

Import Exclusive.

Variable load_signature_with_ksize : string → Z → SourmashSignature.

Local Abbreviation sketch_hashes := (Exclusive.sketch_hashes load_signature_with_ksize).
Local Abbreviation first_pass := (Exclusive.first_pass load_signature_with_ksize).
Local Abbreviation hash_stream := (Exclusive.hash_stream load_signature_with_ksize).
Local Abbreviation candidates_with := (Exclusive.candidates_with load_signature_with_ksize).
Local Abbreviation find_exclusive_hashes :=
  (Exclusive.find_exclusive_hashes load_signature_with_ksize).
Local Abbreviation get_exclusive_hashes :=
  (Exclusive.get_exclusive_hashes load_signature_with_ksize).

Lemma occ_app h l1 l2 : occ h (l1 ++ l2) = (occ h l1 + occ h l2)%nat.
Proof. unfold occ. by rewrite filter_app, length_app. Qed.

Lemma occ_singleton h x : occ h [x] = if decide (x = h) then 1%nat else 0%nat.
Proof. unfold occ. rewrite filter_cons, filter_nil. by case_decide. Qed.

Lemma occ_cons h x l :
  occ h (x :: l) = ((if decide (x = h) then 1 else 0) + occ h l)%nat.
Proof. change (x :: l) with ([x] ++ l). by rewrite occ_app, occ_singleton. Qed.

Lemma occ_not_elem h l : h ∉ l → occ h l = 0%nat.
Proof.
  induction l as [|x l IH]; [done|].
  rewrite not_elem_of_cons, occ_cons. intros [Hne Hl].
  rewrite (IH Hl). by rewrite decide_False.
Qed.

Lemma occ_NoDup h l :
  NoDup l → occ h l = if decide (h ∈ l) then 1%nat else 0%nat.
Proof.
  induction 1 as [|x l Hx Hl IH]; [by rewrite decide_False by apply not_elem_of_nil|].
  rewrite occ_cons. destruct (decide (x = h)) as [->|Hne].
  - rewrite (occ_not_elem _ _ Hx). rewrite decide_True by left. done.
  - rewrite IH. destruct (decide (h ∈ l)) as [Hin|Hin].
    + by rewrite decide_True by (by right).
    + rewrite decide_False; [done|].
      intros [Heq|Hin']%elem_of_cons; [by apply Hne|by apply Hin].
Qed.

Lemma scanned_empty : scanned [] (∅, ∅).
Proof. intros h. cbn. split; split; first [set_solver|lia]. Qed.

(** One step of the inner loop counts one more occurrence of [hash]. *)
Lemma scan_hash_scanned stream st hash :
  scanned stream st → scanned (stream ++ [hash]) (scan_hash st hash).
Proof.
  destruct st as [single multiple]. intros Hinv h.
  destruct (Hinv h) as [H1 H2]. destruct (Hinv hash) as [G1 G2].
  cbn [fst snd] in H1, H2, G1, G2. rewrite occ_app, occ_singleton.
  unfold scan_hash.
  destruct (decide (hash ∈ multiple)) as [Hm|Hm]; cbn [fst snd].
  - destruct (decide (hash = h)) as [->|Hne].
    + apply G2 in Hm. rewrite H1, H2. lia.
    + rewrite !Nat.add_0_r. done.
  - destruct (decide (hash ∈ single)) as [Hs|Hs]; cbn [fst snd].
    + rewrite elem_of_difference, elem_of_union, !elem_of_singleton, H1, H2.
      destruct (decide (hash = h)) as [->|Hne].
      * apply G1 in Hs. intuition lia.
      * rewrite !Nat.add_0_r. intuition congruence.
    + rewrite elem_of_union, elem_of_singleton, H1, H2.
      destruct (decide (hash = h)) as [->|Hne].
      * assert (occ h stream = 0%nat) as Hzero.
        { destruct (occ h stream) as [|[|n]] eqn:E; [done| |].
          - destruct Hs. by apply G1.
          - destruct Hm. apply G2. lia. }
        rewrite Hzero. intuition lia.
      * rewrite !Nat.add_0_r. intuition congruence.
Qed.

Lemma scan_sketch_scanned sketch : ∀ stream st,
  scanned stream st → scanned (stream ++ sketch) (scan_sketch st sketch).
Proof.
  unfold scan_sketch.
  induction sketch as [|x sketch IH]; intros stream st Hinv; cbn.
  - by rewrite app_nil_r.
  - rewrite (assoc_L (++) stream [x] sketch : stream ++ x :: sketch = _).
    apply IH. by apply scan_hash_scanned.
Qed.

Lemma first_pass_scanned md5s ksize dir :
  scanned (hash_stream md5s ksize dir) (first_pass md5s ksize dir).
Proof.
  unfold first_pass.
  cut (∀ stream st, scanned stream st →
         scanned (stream ++ hash_stream md5s ksize dir)
           (foldl (λ st md5, scan_sketch st (sketch_hashes dir md5 ksize)) st md5s)).
  { intros H. apply (H [] _ scanned_empty). }
  induction md5s as [|md5 md5s IH]; intros stream st Hinv; cbn.
  - by rewrite app_nil_r.
  - rewrite (assoc_L (++)). apply IH. by apply scan_sketch_scanned.
Qed.

Lemma NoDup_dict_keys d : NoDup (dict_keys d).
Proof. apply NoDup_fst_map_to_list. Qed.

Lemma occ_stream h md5s ksize dir :
  occ h (hash_stream md5s ksize dir) = candidates_with h md5s ksize dir.
Proof.
  unfold candidates_with. induction md5s as [|md5 md5s IH]; [done|].
  cbn [hash_stream]. rewrite occ_app, IH, filter_cons.
  rewrite occ_NoDup by apply NoDup_dict_keys.
  by destruct (decide (h ∈ sketch_hashes dir md5 ksize)).
Qed.

Lemma first_pass_single h md5s ksize dir :
  h ∈ (first_pass md5s ksize dir).1 ↔ candidates_with h md5s ksize dir = 1%nat.
Proof.
  rewrite <- occ_stream. apply (first_pass_scanned md5s ksize dir h).
Qed.

(** C3: after the first pass, [single_occurrence_hashes] holds exactly the
    hashes that occur in the sketch of exactly one candidate; a hash that
    occurs in the sketches of two or more candidates is not in it. *)
Theorem first_pass_seen_once md5s ksize dir :
  let single_occurrence_hashes := (first_pass md5s ksize dir).1 in
  (∀ h, h ∈ single_occurrence_hashes ↔ candidates_with h md5s ksize dir = 1%nat)
  ∧ (∀ h, (2 ≤ candidates_with h md5s ksize dir)%nat → h ∉ single_occurrence_hashes).
Proof.
  cbn zeta. split; intros h.
  - apply first_pass_single.
  - rewrite first_pass_single. lia.
Qed.

Lemma candidates_with_Permutation h md5s md5s' ksize dir :
  md5s ≡ₚ md5s' →
  candidates_with h md5s ksize dir = candidates_with h md5s' ksize dir.
Proof. intros Hp. unfold Exclusive.candidates_with. by rewrite Hp. Qed.

Lemma first_pass_Permutation md5s md5s' ksize dir :
  md5s ≡ₚ md5s' →
  (first_pass md5s ksize dir).1 = (first_pass md5s' ksize dir).1.
Proof.
  intros Hp. apply set_eq. intros h.
  by rewrite !first_pass_single, (candidates_with_Permutation h _ _ _ _ Hp).
Qed.

Lemma sub_manifest_of_Permutation manifest manifest' names names' :
  manifest ≡ₚ manifest' → names ≡ₚ names' →
  sub_manifest_of manifest names ≡ₚ sub_manifest_of manifest' names'.
Proof.
  intros Hm Hn. unfold sub_manifest_of. rewrite Hm.
  erewrite list_filter_iff; [done|]. intros r. cbn. by rewrite Hn.
Qed.

(** The counts of one candidate, as the second and third loops compute
    them from the seen-once set. *)
Lemma get_exclusive_hashes_info manifest names sample_sig ksize dir :
  let sub_manifest := sub_manifest_of manifest names in
  let single := (first_pass (md5sum <$> sub_manifest) ksize dir).1 in
  let sample_hashes : gset Z := list_to_set (dict_keys (hashes (minhash sample_sig))) in
  get_exclusive_hashes manifest names sample_sig ksize dir
  = ((λ r, let ex := find_exclusive_hashes (md5sum r) dir ksize single in
           (Z.of_nat (size ex), Z.of_nat (size (ex ∩ sample_hashes))))
       <$> sub_manifest,
     sub_manifest).
Proof.
  cbn zeta. unfold Exclusive.get_exclusive_hashes. f_equal.
  rewrite <- !list_fmap_compose. done.
Qed.

(** C4: the pair of counts a genome gets does not depend on the order of
    the candidate list: after any reordering of the manifest rows (and of
    the list of names), the candidates are the same rows reordered, and a
    row, wherever it stands, is given the same pair of counts. *)
Theorem get_exclusive_hashes_order_independent
    manifest manifest' names names' sample_sig ksize dir :
  manifest ≡ₚ manifest' → names ≡ₚ names' →
  let out := get_exclusive_hashes manifest names sample_sig ksize dir in
  let out' := get_exclusive_hashes manifest' names' sample_sig ksize dir in
  zip out.2 out.1 ≡ₚ zip out'.2 out'.1
  ∧ ∀ i j r r', out.2 !! i = Some r → out'.2 !! j = Some r' →
      md5sum r = md5sum r' → out.1 !! i = out'.1 !! j.
Proof.
  intros Hm Hn. cbn zeta. rewrite !get_exclusive_hashes_info. cbn [fst snd].
  pose proof (sub_manifest_of_Permutation _ _ _ _ Hm Hn) as Hsub.
  rewrite <- (first_pass_Permutation _ _ ksize dir (fmap_Permutation md5sum _ _ Hsub)).
  set (single := (first_pass _ ksize dir).1).
  split.
  - rewrite !zip_with_fmap_r, !zip_with_diag. by rewrite Hsub.
  - intros i j r r' Hi Hj Hmd5.
    rewrite !list_lookup_fmap, Hi, Hj. cbn. by rewrite Hmd5.
Qed.

End extractor_facts.

(** A run of the order-independence theorem: the demo manifest against its
    reversal. *)
Lemma get_exclusive_hashes_order_independent_witness :
  let names := ["A"; "B"; "C"]%string in
  let out := Exclusive.get_exclusive_hashes Demo.load Demo.manifest names
               Demo.sample 31 "g" in
  let out' := Exclusive.get_exclusive_hashes Demo.load (reverse Demo.manifest)
                (reverse names) Demo.sample 31 "g" in
  zip out.2 out.1 ≡ₚ zip out'.2 out'.1
  ∧ ∀ i j r r', out.2 !! i = Some r → out'.2 !! j = Some r' →
      md5sum r = md5sum r' → out.1 !! i = out'.1 !! j.
Proof.
  apply (get_exclusive_hashes_order_independent Demo.load);
    symmetry; apply reverse_Permutation.
Defined.

(** Sketches A = {1,2,3}, B = {3,4}, C = {3,4,5}: 1, 2 and 5 are seen once;
    3 (in all three) and 4 (in two) are seen several times. *)
Example first_pass_demo :
  Exclusive.first_pass Demo.load ["a"; "b"; "c"]%string 31 "g"
  = ({[1; 2; 5]}, {[3; 4]}).
Proof. vm_compute. reflexivity. Qed.

Example get_exclusive_hashes_demo :
  (Exclusive.get_exclusive_hashes Demo.load Demo.manifest ["A"; "B"; "C"]%string
     Demo.sample 31 "g").1 = [(2, 2); (0, 0); (1, 1)].
Proof. vm_compute. reflexivity. Qed.

Example get_exclusive_hashes_demo_reversed :
  (Exclusive.get_exclusive_hashes Demo.load (reverse Demo.manifest)
     ["A"; "B"; "C"]%string Demo.sample 31 "g").1 = [(1, 1); (0, 0); (2, 2)].
Proof. vm_compute. reflexivity. Qed.

(** ** The binomial distribution *)

Section binom_weights.

Import binom.

Variables a b : Z.

Lemma cumulative_nil k : cumulative [] k = 0.
Proof. by destruct k. Qed.

Lemma cumulative_cons w r k :
  cumulative (w :: r) k = w + cumulative_below r k.
Proof. destruct k; cbn; lia. Qed.

Lemma next_row_cons x w r :
  next_row a b x (w :: r) = ((b - a) * w + x) :: next_row a b (a * w) r.
Proof. reflexivity. Qed.

Lemma next_row_nil x : next_row a b x [] = [x].
Proof. reflexivity. Qed.

Lemma cumulative_next_row r : ∀ x k,
  cumulative (next_row a b x r) k
  = x + (b - a) * cumulative r k + a * cumulative_below r k.
Proof.
  induction r as [|w r IH]; intros x k.
  - rewrite next_row_nil, cumulative_cons, cumulative_nil.
    destruct k; cbn; rewrite ?cumulative_nil; lia.
  - rewrite next_row_cons, !cumulative_cons.
    destruct k as [|k]; cbn [cumulative_below]; [lia|].
    rewrite IH, cumulative_cons. lia.
Qed.

Lemma nth_next_row r : ∀ x k,
  nth k (next_row a b x r) 0
  = (b - a) * nth k r 0 + match k with O => x | S k' => a * nth k' r 0 end.
Proof.
  induction r as [|w r IH]; intros x k.
  - rewrite next_row_nil. destruct k as [|[|k]]; cbn; lia.
  - rewrite next_row_cons. destruct k as [|k]; [cbn; lia|].
    cbn [nth]. rewrite IH. destruct k; cbn [nth]; lia.
Qed.

(** Pascal's rule for the cumulative weights. *)
Lemma cumulative_weights_succ n k :
  cumulative (weights (S n) a b) k
  = (b - a) * cumulative (weights n a b) k
    + a * cumulative_below (weights n a b) k.
Proof. cbn [weights]. rewrite cumulative_next_row. lia. Qed.

Lemma weight_succ n k :
  nth k (weights (S n) a b) 0
  = (b - a) * nth k (weights n a b) 0
    + match k with O => 0 | S k' => a * nth k' (weights n a b) 0 end.
Proof. cbn [weights]. by rewrite nth_next_row. Qed.

Lemma choose_0_r n : choose n 0 = 1.
Proof. by destruct n. Qed.

Lemma choose_gt n : ∀ k, (n < k)%nat → choose n k = 0.
Proof.
  induction n as [|n IH]; intros [|k] Hk; try lia; [done|].
  cbn [choose]. rewrite !IH by lia. done.
Qed.

(** The weights in closed form: C(n,k) a^k (b-a)^(n-k). *)
Lemma weight_closed_form n : ∀ k,
  nth k (weights n a b) 0
  = choose n k * a ^ Z.of_nat k * (b - a) ^ Z.of_nat (n - k).
Proof.
  induction n as [|n IH]; intros k.
  - destruct k as [|[|k]]; cbn; lia.
  - rewrite weight_succ. destruct k as [|k].
    + rewrite IH, !choose_0_r, !Nat.sub_0_r.
      rewrite Nat2Z.inj_succ, Z.pow_succ_r by lia. cbn. lia.
    + rewrite !IH. cbn [choose]. rewrite Nat.sub_succ.
      rewrite Nat2Z.inj_succ, Z.pow_succ_r by lia.
      destruct (decide (k < n)%nat) as [Hlt|Hge].
      * replace (n - k)%nat with (S (n - S k)) by lia.
        rewrite !Nat2Z.inj_succ, !Z.pow_succ_r by lia. lia.
      * rewrite (choose_gt n (S k)) by lia. lia.
Qed.

(** All mass lies on [0..n]: the weights sum to [b^n]. *)
Lemma cumulative_weights_total n : ∀ k,
  (n ≤ k)%nat → cumulative (weights n a b) k = b ^ Z.of_nat n.
Proof.
  induction n as [|n IH]; intros k Hk.
  - cbn [weights]. rewrite cumulative_cons, Z.pow_0_r.
    destruct k; cbn; rewrite ?cumulative_nil; lia.
  - rewrite cumulative_weights_succ, IH by lia.
    destruct k as [|k]; [lia|]. cbn [cumulative_below]. rewrite IH by lia.
    rewrite Nat2Z.inj_succ, Z.pow_succ_r by lia. lia.
Qed.

Hypothesis a_nonneg : 0 ≤ a.
Hypothesis a_le_b : a ≤ b.

Lemma weight_nonneg n : ∀ k, 0 ≤ nth k (weights n a b) 0.
Proof.
  induction n as [|n IH]; intros k.
  - destruct k as [|[|k]]; cbn; lia.
  - rewrite weight_succ. pose proof (IH k).
    destruct k as [|k]; [nia|]. pose proof (IH k). nia.
Qed.

Lemma cumulative_below_le n : ∀ k,
  0 ≤ cumulative_below (weights n a b) k ≤ cumulative (weights n a b) k.
Proof.
  induction n as [|n IH]; intros k.
  - cbn [weights]. rewrite cumulative_cons.
    destruct k as [|k]; cbn [cumulative_below]; [lia|].
    rewrite cumulative_cons.
    destruct k; cbn [cumulative_below]; rewrite ?cumulative_nil; lia.
  - rewrite cumulative_weights_succ.
    destruct k as [|k]; cbn [cumulative_below].
    + pose proof (IH 0%nat). cbn [cumulative_below] in *. nia.
    + rewrite cumulative_weights_succ.
      pose proof (IH (S k)) as H1. pose proof (IH k) as H2.
      cbn [cumulative_below] in H1. nia.
Qed.

Lemma cumulative_weights_nonneg n k : 0 ≤ cumulative (weights n a b) k.
Proof. pose proof (cumulative_below_le n k). lia. Qed.

Lemma cumulative_weights_mono_k n k :
  cumulative (weights n a b) k ≤ cumulative (weights n a b) (S k).
Proof. apply (cumulative_below_le n (S k)). Qed.

Lemma cumulative_weights_mono_le n k k' :
  (k ≤ k')%nat → cumulative (weights n a b) k ≤ cumulative (weights n a b) k'.
Proof.
  induction 1 as [|k' _ IH]; [lia|].
  pose proof (cumulative_weights_mono_k n k'). lia.
Qed.

(** One more trial can only lower the probability of at most [k]
    successes: [C(n+1,k) / b^(n+1) ≤ C(n,k) / b^n]. *)
Lemma cumulative_weights_succ_le n k :
  cumulative (weights (S n) a b) k ≤ b * cumulative (weights n a b) k.
Proof.
  rewrite cumulative_weights_succ. pose proof (cumulative_below_le n k). nia.
Qed.

Lemma cumulative_weights_le_total n k :
  cumulative (weights n a b) k ≤ b ^ Z.of_nat n.
Proof.
  destruct (decide (n ≤ k)%nat) as [Hle|Hgt].
  - by rewrite cumulative_weights_total.
  - rewrite <- (cumulative_weights_total n n) by lia.
    apply cumulative_weights_mono_le. lia.
Qed.

End binom_weights.

Section binom_distribution.

Import binom.

Lemma pow_den_spec d n : Z.pos (pow_den d n) = Z.pos d ^ Z.of_nat n.
Proof.
  induction n as [|n IH]; [done|].
  change (pow_den d (S n)) with (d * pow_den d n)%positive.
  rewrite Pos2Z.inj_mul, IH.
  rewrite Nat2Z.inj_succ, Z.pow_succ_r by lia. done.
Qed.

Lemma probability_num_den p :
  (0 <= p)%Q → (p <= 1)%Q → 0 ≤ Qnum p ≤ Z.pos (Qden p).
Proof. destruct p as [u v]. unfold Qle. cbn. lia. Qed.

Variable p : Q.
Hypothesis p_nonneg : (0 <= p)%Q.
Hypothesis p_le_1 : (p <= 1)%Q.

Lemma cdf_Q_nonneg k n : (0 <= cdf_Q k n p)%Q.
Proof.
  destruct (probability_num_den p p_nonneg p_le_1) as [Ha Hb].
  unfold cdf_Q, Qle. cbn [Qnum Qden].
  pose proof (cumulative_weights_nonneg _ _ Ha Hb n k). lia.
Qed.

Lemma cdf_Q_le_1 k n : (cdf_Q k n p <= 1)%Q.
Proof.
  destruct (probability_num_den p p_nonneg p_le_1) as [Ha Hb].
  unfold cdf_Q, Qle. cbn [Qnum Qden]. rewrite pow_den_spec.
  pose proof (cumulative_weights_le_total _ _ Ha Hb n k). lia.
Qed.

Lemma cdf_Q_total k n : (n ≤ k)%nat → (cdf_Q k n p == 1)%Q.
Proof.
  intros Hk. unfold cdf_Q, Qeq. cbn [Qnum Qden].
  rewrite pow_den_spec, cumulative_weights_total by done. lia.
Qed.

Lemma cdf_Q_mono k k' n : (k ≤ k')%nat → (cdf_Q k n p <= cdf_Q k' n p)%Q.
Proof.
  intros Hk. destruct (probability_num_den p p_nonneg p_le_1) as [Ha Hb].
  unfold cdf_Q, Qle. cbn [Qnum Qden].
  pose proof (cumulative_weights_mono_le _ _ Ha Hb n k k' Hk). nia.
Qed.

(** One more trial lowers the distribution function pointwise. *)
Lemma cdf_Q_succ_le k n : (cdf_Q k (S n) p <= cdf_Q k n p)%Q.
Proof.
  destruct (probability_num_den p p_nonneg p_le_1) as [Ha Hb].
  unfold cdf_Q, Qle. cbn [Qnum Qden]. rewrite !pow_den_spec.
  rewrite Nat2Z.inj_succ, Z.pow_succ_r by lia.
  pose proof (cumulative_weights_succ_le _ _ Ha Hb n k).
  assert (0 < Z.pos (Qden p) ^ Z.of_nat n) by (apply Z.pow_pos_nonneg; lia).
  nia.
Qed.

Lemma cdf_Q_trials_le k n m : (n ≤ m)%nat → (cdf_Q k m p <= cdf_Q k n p)%Q.
Proof.
  induction 1 as [|m _ IH]; [apply Qle_refl|].
  eapply Qle_trans; [apply cdf_Q_succ_le|done].
Qed.

End binom_distribution.

Section binom_quantile.

Import binom.

Lemma least_from_spec (f : nat → bool) fuel : ∀ k,
  let j := least_from f k fuel in
  (k ≤ j ≤ k + fuel)%nat
  ∧ (∀ i, (k ≤ i < j)%nat → f i = false)
  ∧ ((j < k + fuel)%nat → f j = true).
Proof.
  induction fuel as [|fuel IH]; intros k; cbn [least_from].
  - cbn zeta. repeat split; intros; lia.
  - destruct (f k) eqn:Hfk; cbn zeta.
    + repeat split; intros; first [lia|done].
    + destruct (IH (S k)) as (Hr & Hlo & Hhi). cbn zeta in *.
      repeat split; try lia.
      * intros i Hi. destruct (decide (i = k)) as [->|]; [done|]. apply Hlo. lia.
      * intros Hj. apply Hhi. lia.
Qed.

Variables q p : Q.
Hypothesis q_le_1 : (q <= 1)%Q.
Hypothesis p_nonneg : (0 <= p)%Q.
Hypothesis p_le_1 : (p <= 1)%Q.

(** The quantile is the least count whose distribution function reaches
    the level. *)
Lemma ppf_nat_spec n :
  let t := ppf_nat q n p in
  (t ≤ n)%nat
  ∧ (q <= cdf_Q t n p)%Q
  ∧ ∀ k, (k < t)%nat → (cdf_Q k n p < q)%Q.
Proof.
  unfold ppf_nat.
  destruct (least_from_spec (λ k, Qle_bool q (cdf_Q k n p)) n 0) as (Hr & Hlo & Hhi).
  cbn zeta in *. repeat split; [lia| |].
  - destruct (decide (least_from (λ k, Qle_bool q (cdf_Q k n p)) 0 n < n)%nat)
      as [Hlt|Hge].
    + apply Qle_bool_iff, Hhi. lia.
    + rewrite (cdf_Q_total p _ n) by lia. done.
  - intros k Hk. apply Qnot_le_lt. intros Hle.
    apply Qle_bool_iff in Hle. rewrite Hlo in Hle by lia. done.
Qed.

Lemma ppf_nat_least n k : (q <= cdf_Q k n p)%Q → (ppf_nat q n p ≤ k)%nat.
Proof.
  intros Hk. destruct (ppf_nat_spec n) as (_ & _ & Hlo). cbn zeta in Hlo.
  destruct (decide (ppf_nat q n p ≤ k)%nat) as [|Hgt]; [done|].
  exfalso. apply (Qlt_not_le _ _ (Hlo k ltac:(lia))). done.
Qed.

(** More trials never lower the quantile. *)
Lemma ppf_nat_mono n m : (n ≤ m)%nat → (ppf_nat q n p ≤ ppf_nat q m p)%nat.
Proof.
  intros Hnm. apply ppf_nat_least.
  destruct (ppf_nat_spec m) as (_ & Hq & _). cbn zeta in Hq.
  eapply Qle_trans; [exact Hq|]. by apply cdf_Q_trials_le.
Qed.

End binom_quantile.

Section binom_closed_form.

Import binom.

Lemma cumulative_succ (row : list Z) : ∀ k,
  cumulative row (S k) = cumulative row k + nth (S k) row 0.
Proof.
  induction row as [|w row IH]; intros k; [by destruct k|].
  destruct k as [|k].
  - cbn. destruct row; cbn; lia.
  - change (cumulative (w :: row) (S (S k))) with (w + cumulative row (S k)).
    change (cumulative (w :: row) (S k)) with (w + cumulative row k).
    rewrite IH. cbn [nth]. lia.
Qed.

(** The distribution function adds up the probabilities. *)
Lemma cdf_Q_succ k n p : (cdf_Q (S k) n p == cdf_Q k n p + pmf_Q (S k) n p)%Q.
Proof.
  unfold cdf_Q, pmf_Q, Qeq. cbn [Qnum Qden Qplus].
  rewrite cumulative_succ, Pos2Z.inj_mul. lia.
Qed.

Lemma cdf_Q_0 n p : cdf_Q 0 n p = pmf_Q 0 n p.
Proof. unfold cdf_Q, pmf_Q. by destruct (weights n _ _). Qed.

Lemma Qpower_frac (u : Z) (v : positive) (k : nat) :
  ((u # v) ^ Z.of_nat k == u ^ Z.of_nat k # pow_den v k)%Q.
Proof.
  induction k as [|k IH]; [done|].
  rewrite Nat2Z.inj_succ, <- Z.add_1_r.
  rewrite Qpower_plus' by lia. rewrite IH.
  change ((u # v) ^ 1)%Q with (u # v).
  unfold Qeq. cbn [Qnum Qden Qmult].
  change (pow_den v (S k)) with (v * pow_den v k)%positive.
  rewrite Z.pow_add_r by lia. rewrite !Pos2Z.inj_mul. lia.
Qed.

(** The probability of [k] successes in closed form. *)
Lemma pmf_Q_closed_form k n p :
  (k ≤ n)%nat →
  (pmf_Q k n p
   == inject_Z (choose n k) * p ^ Z.of_nat k * (1 - p) ^ Z.of_nat (n - k))%Q.
Proof.
  intros Hk. destruct p as [u v]. unfold pmf_Q. cbn [Qnum Qden].
  rewrite weight_closed_form.
  assert (H1 : (1 - (u # v) == (Z.pos v - u) # v)%Q).
  { unfold Qeq. cbn. lia. }
  rewrite H1, !Qpower_frac.
  unfold Qeq. cbn [Qnum Qden Qmult inject_Z].
  rewrite !Pos2Z.inj_mul, !pow_den_spec.
  replace (Z.of_nat n) with (Z.of_nat k + Z.of_nat (n - k)) by lia.
  rewrite Z.pow_add_r by lia. lia.
Qed.

End binom_closed_form.

(** ** Hypothesis tester *)

Section arithmetic_facts.

Lemma Qmult_le_1 x y : (0 <= x <= 1)%Q → (0 <= y <= 1)%Q → (0 <= x * y <= 1)%Q.
Proof. intros [? ?] [? ?]. split; nra. Qed.

Lemma Qpower_positive_unit (q : Q) (n : positive) :
  (0 <= q <= 1)%Q → (0 <= Qpower_positive q n <= 1)%Q.
Proof.
  intros Hq. induction n as [n IH|n IH|]; cbn.
  - apply Qmult_le_1; [done|]. by apply Qmult_le_1.
  - by apply Qmult_le_1.
  - done.
Qed.

(** [a ** ksize] is a probability when [a] is. *)
Lemma Qpower_unit (q : Q) (k : Z) :
  (0 <= q <= 1)%Q → 0 ≤ k → (0 <= q ^ k <= 1)%Q.
Proof.
  intros Hq Hk. destruct k as [|k|k]; [|by apply Qpower_positive_unit|lia].
  cbn. split; [apply Qle_bool_iff|apply Qle_bool_iff]; reflexivity.
Qed.

(** [int(n * c)] for a count [n] and a coverage [c] in (0, 1]. *)
Lemma int_of_float_mul (n : Z) (c : Q) :
  Py.int_of_float (Py.float_mul (Py.float_of_int n) (Finite c))
  = Ok (Z.quot (n * Qnum c) (Z.pos (Qden c))).
Proof. destruct c as [u v]. reflexivity. Qed.

Lemma coverage_count_bounds (n : Z) (c : Q) :
  0 ≤ n → (0 <= c)%Q → (c <= 1)%Q →
  0 ≤ Z.quot (n * Qnum c) (Z.pos (Qden c)) ≤ n.
Proof.
  intros Hn Hc0 Hc1. destruct (probability_num_den c Hc0 Hc1) as [Hu Hv].
  rewrite Z.quot_div_nonneg by nia. split.
  - apply Z.div_pos; nia.
  - apply Z.div_le_upper_bound; nia.
Qed.

Lemma coverage_count_floor (n : Z) (c : Q) :
  0 ≤ n → (0 <= c)%Q →
  Z.quot (n * Qnum c) (Z.pos (Qden c)) = Qfloor (inject_Z n * c).
Proof.
  intros Hn Hc. destruct c as [u v]. unfold Qle in Hc. cbn in *.
  rewrite Z.quot_div_nonneg by nia. done.
Qed.

Lemma coverage_count_one (n : Z) : Z.quot (n * Qnum 1) (Z.pos (Qden 1)) = n.
Proof. cbn. rewrite Z.mul_1_r. apply Z.quot_1_r. Qed.

End arithmetic_facts.

Section tester_facts.

Variable betaincinv : pyfloat → pyfloat → pyfloat → pyfloat.
Variable float_pow : pyfloat → pyfloat → pyfloat.

Local Abbreviation get_alt_mut_rate := (Tester.get_alt_mut_rate betaincinv float_pow).
Local Abbreviation single_hyp_test := (Tester.single_hyp_test betaincinv float_pow).

Lemma float_pow_int_ok (a : pyfloat) (ksize : Z) :
  1 ≤ ksize →
  Py.float_pow_int a ksize
  = Ok (match a with Finite q => Finite (q ^ ksize) | NaN => NaN end).
Proof.
  intros Hk. destruct a as [q|]; cbn.
  - replace (ksize <? 0) with false by lia. by rewrite andb_false_r.
  - by rewrite decide_False by lia.
Qed.

Lemma int_truediv_ok (x y : Z) :
  y ≠ 0 → Py.int_truediv x y = Ok (Finite (inject_Z x / inject_Z y)).
Proof. intros Hy. unfold Py.int_truediv. by rewrite decide_False. Qed.

(** What [get_alt_mut_rate] computes when [ksize] is not zero. *)
Lemma get_alt_mut_rate_ok nu thresh ksize significance :
  ksize ≠ 0 →
  let inv := betaincinv (Py.float_sub (Py.float_of_int nu) thresh)
               (Py.float_add (Py.float_of_int 1) thresh) significance in
  let mut := Py.float_sub (Py.float_of_int 1)
               (float_pow (Py.float_sub (Py.float_of_int 1) inv)
                  (Finite (inject_Z 1 / inject_Z ksize))) in
  get_alt_mut_rate nu thresh ksize significance
  = Ok (if Py.isnan mut then Finite (inject_Z (-1)) else mut).
Proof.
  intros Hk. cbn zeta. unfold Tester.get_alt_mut_rate.
  by rewrite int_truediv_ok.
Qed.

(** What [single_hyp_test] computes for a k-mer size of at least one and a
    coverage that is a number. *)
Lemma single_hyp_test_ok n m ksize significance ani_thresh (c : Q) :
  1 ≤ ksize →
  let non_mut_p :=
    match ani_thresh with Finite q => Finite (q ^ ksize) | NaN => NaN end in
  let n_c := Z.quot (n * Qnum c) (Z.pos (Qden c)) in
  let t := binom.ppf (Py.float_sub (Py.float_of_int 1) significance) n_c non_mut_p in
  ∃ r,
    single_hyp_test (n, m) ksize significance ani_thresh (Finite c) = Ok r
    ∧ in_sample_est r
      = Py.int_ge_float m t && negb (m =? 0) && Py.float_ne_int t 0
    ∧ p_vals r = binom.cdf (Py.float_of_int m) n non_mut_p
    ∧ num_exclusive_kmers_to_genome r = n
    ∧ num_exclusive_kmers_to_genome_coverage r = n_c
    ∧ num_matches r = m
    ∧ acceptance_threshold_with_coverage r = t
    ∧ actual_confidence_with_coverage r
      = Py.float_sub (Py.float_of_int 1) (binom.cdf t n_c non_mut_p)
    ∧ get_alt_mut_rate n_c t ksize significance
      = Ok (alt_confidence_mut_rate_with_coverage r).
Proof.
  intros Hk. cbn zeta. unfold Tester.single_hyp_test. cbn [fst snd].
  rewrite float_pow_int_ok by done. cbn [mbind result_bind].
  rewrite int_of_float_mul. cbn [mbind result_bind].
  rewrite (get_alt_mut_rate_ok _ _ ksize) by lia. cbn [mbind result_bind].
  eexists. split; [reflexivity|]. cbn. repeat split; reflexivity.
Qed.

End tester_facts.

Section tester_properties.

Import binom.

Variable betaincinv : pyfloat → pyfloat → pyfloat → pyfloat.
Variable float_pow : pyfloat → pyfloat → pyfloat.

Local Abbreviation get_alt_mut_rate := (Tester.get_alt_mut_rate betaincinv float_pow).
Local Abbreviation single_hyp_test := (Tester.single_hyp_test betaincinv float_pow).

Lemma Qeq_bool_false x y : ¬ (x == y)%Q → Qeq_bool x y = false.
Proof.
  intros Hne. destruct (Qeq_bool x y) eqn:E; [|done].
  by apply Qeq_bool_eq in E.
Qed.

Lemma Qle_bool_true x y : (x <= y)%Q → Qle_bool x y = true.
Proof. apply Qle_bool_iff. Qed.

(** On the tester's domain the acceptance threshold is the quantile of
    Binomial(n_c, a^ksize) at level [1 - s]. *)
Lemma acceptance_threshold_quantile (n_c ksize : Z) (s a : Q) :
  0 ≤ n_c → 1 ≤ ksize → (0 < s)%Q → (s < 1)%Q → (0 <= a)%Q → (a <= 1)%Q →
  ppf (Py.float_sub (Py.float_of_int 1) (Finite s)) n_c (Finite (a ^ ksize))
  = Finite (inject_Z (Z.of_nat (ppf_nat (1 - s) (Z.to_nat n_c) (a ^ ksize)))).
Proof.
  intros Hn Hk Hs0 Hs1 Ha0 Ha1.
  destruct (Qpower_unit a ksize (conj Ha0 Ha1) ltac:(lia)) as [Hp0 Hp1].
  unfold ppf, Py.float_sub, Py.float_of_int.
  change (inject_Z 1) with 1%Q.
  unfold argcheck. replace (0 <=? n_c) with true by lia.
  rewrite !Qle_bool_true by done. cbn [andb negb].
  rewrite (Qeq_bool_false (1 - s) 0) by lra.
  rewrite (Qeq_bool_false (1 - s) 1) by lra.
  rewrite !Qle_bool_true by lra. done.
Qed.

(** The three tests behind [in_sample_est], on a threshold that is a
    count. *)
Lemma presence_decision (t m : Z) :
  Py.int_ge_float m (Finite (inject_Z t)) && negb (m =? 0)
    && Py.float_ne_int (Finite (inject_Z t)) 0 = true
  ↔ t ≤ m ∧ m ≠ 0 ∧ t ≠ 0.
Proof.
  cbn [Py.int_ge_float Py.float_ne_int].
  rewrite !andb_true_iff, !negb_true_iff, Qle_bool_iff, <- Zle_Qle, Z.eqb_neq.
  split.
  - intros [[H1 H2] H3]. repeat split; [done|done|].
    intros ->. by rewrite Qeq_bool_refl in H3.
  - intros (H1 & H2 & H3). repeat split; [done|done|].
    apply Qeq_bool_false. intros Heq. by apply H3, inject_Z_injective.
Qed.

(** On the tester's domain: the run, the threshold as a count, the
    decision and the p-value. *)
Lemma single_hyp_test_on_domain (n m ksize : Z) (s a c : Q) :
  0 ≤ n → 1 ≤ ksize →
  (0 < s)%Q → (s < 1)%Q → (0 < a)%Q → (a < 1)%Q → (0 < c)%Q → (c <= 1)%Q →
  ∃ r (t : nat),
    single_hyp_test (n, m) ksize (Finite s) (Finite a) (Finite c) = Ok r
    ∧ acceptance_threshold_with_coverage r = Finite (inject_Z (Z.of_nat t))
    ∧ (in_sample_est r = true ↔ Z.of_nat t ≤ m ∧ m ≠ 0 ∧ Z.of_nat t ≠ 0)
    ∧ p_vals r = cdf (Py.float_of_int m) n (Finite (a ^ ksize))
    ∧ num_exclusive_kmers_to_genome r = n
    ∧ num_exclusive_kmers_to_genome_coverage r = Z.quot (n * Qnum c) (Z.pos (Qden c))
    ∧ num_matches r = m.
Proof.
  intros Hn Hk Hs0 Hs1 Ha0 Ha1 Hc0 Hc1.
  destruct (single_hyp_test_ok betaincinv float_pow n m ksize (Finite s) (Finite a) c Hk)
    as (r & Hr & Hest & Hp & Hne & Hnc & Hnm & Ht & _).
  cbn zeta in Hest, Hp, Hnc, Ht.
  pose proof (coverage_count_bounds n c Hn ltac:(lra) Hc1) as [Hnc0 _].
  rewrite acceptance_threshold_quantile in Hest, Ht by (done || lra).
  eexists r, _. split; [exact Hr|]. split; [exact Ht|].
  split; [|done]. rewrite Hest. apply presence_decision.
Qed.

(** C1: on the tester's domain [single_hyp_test] returns, the acceptance
    threshold [t] it computed is a count, and [in_sample_est] is true exactly
    when [num_matched >= t], [num_matched <> 0] and [t <> 0]; with no match
    [in_sample_est] is false. *)
Theorem single_hyp_test_presence (n m ksize : Z) (s a c : Q) :
  0 ≤ n → 1 ≤ ksize →
  (0 < s)%Q → (s < 1)%Q → (0 < a)%Q → (a < 1)%Q → (0 < c)%Q → (c <= 1)%Q →
  ∃ r (t : Z),
    single_hyp_test (n, m) ksize (Finite s) (Finite a) (Finite c) = Ok r
    ∧ acceptance_threshold_with_coverage r = Finite (inject_Z t)
    ∧ (in_sample_est r = true ↔ t ≤ m ∧ m ≠ 0 ∧ t ≠ 0)
    ∧ (m = 0 → in_sample_est r = false).
Proof.
  intros Hn Hk Hs0 Hs1 Ha0 Ha1 Hc0 Hc1.
  destruct (single_hyp_test_on_domain n m ksize s a c) as (r & t & Hr & Ht & Hest & _);
    try done.
  exists r, (Z.of_nat t). split; [exact Hr|]. split; [exact Ht|]. split; [exact Hest|].
  intros ->. destruct (in_sample_est r); [|done].
  destruct Hest as [Hest _]. destruct (Hest eq_refl) as (_ & Hm & _). done.
Qed.

(** The trial count and the threshold on the tester's domain. *)
Lemma acceptance_threshold_is_quantile_aux (n m ksize : Z) (s a c : Q) :
  0 ≤ n → 1 ≤ ksize →
  (0 < s)%Q → (s < 1)%Q → (0 < a)%Q → (a < 1)%Q → (0 < c)%Q → (c <= 1)%Q →
  ∃ r (t : nat),
    single_hyp_test (n, m) ksize (Finite s) (Finite a) (Finite c) = Ok r
    ∧ num_exclusive_kmers_to_genome_coverage r = Qfloor (inject_Z n * c)
    ∧ acceptance_threshold_with_coverage r = Finite (inject_Z (Z.of_nat t))
    ∧ let n_c := Z.to_nat (num_exclusive_kmers_to_genome_coverage r) in
      (t ≤ n_c)%nat
      ∧ (1 - s <= cdf_Q t n_c (a ^ ksize))%Q
      ∧ ∀ k, (k < t)%nat → (cdf_Q k n_c (a ^ ksize) < 1 - s)%Q.
Proof.
  intros Hn Hk Hs0 Hs1 Ha0 Ha1 Hc0 Hc1.
  destruct (single_hyp_test_ok betaincinv float_pow n m ksize (Finite s) (Finite a) c Hk)
    as (r & Hr & _ & _ & _ & Hnc & _ & Ht & _).
  cbn zeta in Hnc, Ht.
  pose proof (coverage_count_bounds n c Hn ltac:(lra) Hc1) as [Hnc0 _].
  rewrite acceptance_threshold_quantile in Ht by (done || lra).
  eexists r, _. split; [exact Hr|]. split.
  { rewrite Hnc. apply coverage_count_floor; [done|lra]. }
  split; [exact Ht|]. rewrite Hnc.
  destruct (Qpower_unit a ksize ltac:(split; lra) ltac:(lia)) as [Hp0 Hp1].
  apply ppf_nat_spec; (done || lra).
Qed.


(** The acceptance threshold is never the least count with "the
    probability of fewer than [t] matches is at least [1 - s]": at the
    threshold that probability is still below [1 - s]. *)
Lemma acceptance_threshold_fewer_than (n m ksize : Z) (s a c : Q) :
  0 ≤ n → 1 ≤ ksize →
  (0 < s)%Q → (s < 1)%Q → (0 < a)%Q → (a < 1)%Q → (0 < c)%Q → (c <= 1)%Q →
  ∃ r (t : nat),
    single_hyp_test (n, m) ksize (Finite s) (Finite a) (Finite c) = Ok r
    ∧ acceptance_threshold_with_coverage r = Finite (inject_Z (Z.of_nat t))
    ∧ (prob_fewer_than t (Z.to_nat (num_exclusive_kmers_to_genome_coverage r))
         (a ^ ksize) < 1 - s)%Q.
Proof.
  intros Hn Hk Hs0 Hs1 Ha0 Ha1 Hc0 Hc1.
  destruct (acceptance_threshold_is_quantile_aux n m ksize s a c)
    as (r & t & Hr & _ & Ht & _ & _ & Hlow); try done.
  exists r, t. split; [exact Hr|]. split; [exact Ht|].
  destruct t as [|t]; cbn [prob_fewer_than]; [lra|]. apply Hlow. lia.
Qed.

(** C5: the p-value is the distribution function of
    Binomial(num_exclusive, a^ksize) at [num_matched]: the trial count is the
    unadjusted [num_exclusive], whatever the coverage. *)
Theorem p_value_unadjusted (n m ksize : Z) (s a c : Q) :
  0 ≤ n → 0 ≤ m → 1 ≤ ksize →
  (0 < s)%Q → (s < 1)%Q → (0 < a)%Q → (a < 1)%Q → (0 < c)%Q → (c <= 1)%Q →
  ∃ r,
    single_hyp_test (n, m) ksize (Finite s) (Finite a) (Finite c) = Ok r
    ∧ p_vals r = cdf (Py.float_of_int m) n (Finite (a ^ ksize))
    ∧ (m < n → p_vals r = Finite (cdf_Q (Z.to_nat m) (Z.to_nat n) (a ^ ksize)))
    ∧ (n ≤ m → p_vals r = Finite 1).
Proof.
  intros Hn Hm Hk Hs0 Hs1 Ha0 Ha1 Hc0 Hc1.
  destruct (single_hyp_test_ok betaincinv float_pow n m ksize (Finite s) (Finite a) c Hk)
    as (r & Hr & _ & Hp & _).
  cbn zeta in Hp. exists r. split; [exact Hr|]. split; [exact Hp|].
  destruct (Qpower_unit a ksize ltac:(split; lra) ltac:(lia)) as [Hp0 Hp1].
  rewrite Hp. unfold cdf, Py.float_of_int, argcheck.
  replace (0 <=? n) with true by lia. rewrite !Qle_bool_true by done.
  cbn [andb negb]. split.
  - intros Hlt.
    assert (Qle_bool (inject_Z n) (inject_Z m) = false) as ->.
    { destruct (Qle_bool (inject_Z n) (inject_Z m)) eqn:E; [|done].
      apply Qle_bool_iff in E. rewrite <- Zle_Qle in E. lia. }
    rewrite Qle_bool_true by (unfold Qle; cbn; lia).
    cbn [negb]. by rewrite Qfloor_Z.
  - intros Hle. rewrite Qle_bool_true by (by rewrite <- Zle_Qle). done.
Qed.

(** More trials and the same level: the threshold does not go down. *)
Lemma acceptance_threshold_mono (n1 n2 ksize : Z) (s a : Q) :
  0 ≤ n1 ≤ n2 → 1 ≤ ksize → (0 < s)%Q → (s < 1)%Q → (0 <= a)%Q → (a <= 1)%Q →
  (ppf_nat (1 - s) (Z.to_nat n1) (a ^ ksize)
   ≤ ppf_nat (1 - s) (Z.to_nat n2) (a ^ ksize))%nat.
Proof.
  intros Hn Hk Hs0 Hs1 Ha0 Ha1.
  destruct (Qpower_unit a ksize (conj Ha0 Ha1) ltac:(lia)) as [Hp0 Hp1].
  apply ppf_nat_mono; (done || lra || lia).
Qed.

(** C8: for a coverage [c] in (0, 1] the coverage-adjusted trial count
    [int(num_exclusive * c)] is at most [num_exclusive], and the acceptance
    threshold at coverage [c] is at most the acceptance threshold at
    coverage 1. *)
Theorem coverage_monotone (n m ksize : Z) (s a c : Q) :
  0 ≤ n → 1 ≤ ksize →
  (0 < s)%Q → (s < 1)%Q → (0 < a)%Q → (a < 1)%Q → (0 < c)%Q → (c <= 1)%Q →
  ∃ r_c r_1 (t_c t_1 : Z),
    single_hyp_test (n, m) ksize (Finite s) (Finite a) (Finite c) = Ok r_c
    ∧ single_hyp_test (n, m) ksize (Finite s) (Finite a) (Finite 1) = Ok r_1
    ∧ num_exclusive_kmers_to_genome_coverage r_c ≤ n
    ∧ num_exclusive_kmers_to_genome_coverage r_1 = n
    ∧ acceptance_threshold_with_coverage r_c = Finite (inject_Z t_c)
    ∧ acceptance_threshold_with_coverage r_1 = Finite (inject_Z t_1)
    ∧ t_c ≤ t_1.
Proof.
  intros Hn Hk Hs0 Hs1 Ha0 Ha1 Hc0 Hc1.
  destruct (single_hyp_test_ok betaincinv float_pow n m ksize (Finite s) (Finite a) c Hk)
    as (r_c & Hr_c & _ & _ & _ & Hnc & _ & Htc & _).
  destruct (single_hyp_test_ok betaincinv float_pow n m ksize (Finite s) (Finite a) 1 Hk)
    as (r_1 & Hr_1 & _ & _ & _ & Hn1 & _ & Ht1 & _).
  cbn zeta in Hnc, Htc, Hn1, Ht1.
  rewrite coverage_count_one in Hn1, Ht1.
  pose proof (coverage_count_bounds n c Hn ltac:(lra) Hc1) as [Hnc0 Hncn].
  rewrite acceptance_threshold_quantile in Htc, Ht1 by (done || lra).
  eexists r_c, r_1, _, _.
  split; [exact Hr_c|]. split; [exact Hr_1|].
  split; [by rewrite Hnc|]. split; [exact Hn1|].
  split; [exact Htc|]. split; [exact Ht1|].
  apply Nat2Z.inj_le, acceptance_threshold_mono; (done || lra).
Qed.

End tester_properties.

Section tester_totality.

Import binom.

Variable betaincinv : pyfloat → pyfloat → pyfloat → pyfloat.
Variable float_pow : pyfloat → pyfloat → pyfloat.

Local Abbreviation single_hyp_test := (Tester.single_hyp_test betaincinv float_pow).

(** At and above the number of trials the distribution function is 1. *)
Lemma cdf_above_support (n m ksize : Z) (a : Q) :
  0 ≤ n → n ≤ m → 1 ≤ ksize → (0 < a)%Q → (a < 1)%Q →
  cdf (Py.float_of_int m) n (Finite (a ^ ksize)) = Finite 1.
Proof.
  intros Hn Hm Hk Ha0 Ha1.
  destruct (Qpower_unit a ksize ltac:(split; lra) ltac:(lia)) as [Hp0 Hp1].
  unfold cdf, Py.float_of_int, argcheck.
  replace (0 <=? n) with true by lia. rewrite !Qle_bool_true by done.
  cbn [andb negb]. rewrite Qle_bool_true by (unfold Qle; cbn; lia). done.
Qed.

(** C7: [single_hyp_test] returns on the boundary inputs.  With more
    matches than exclusive hashes it returns a result: the threshold is a
    count, [in_sample_est] is the decision on it, and the p-value is 1.  On
    the pair (0, 0) it returns a result with [in_sample_est] false. *)
Theorem single_hyp_test_boundary (ksize : Z) (s a c : Q) :
  1 ≤ ksize →
  (0 < s)%Q → (s < 1)%Q → (0 < a)%Q → (a < 1)%Q → (0 < c)%Q → (c <= 1)%Q →
  (∀ n m, 0 ≤ n → n < m →
     ∃ r (t : Z),
       single_hyp_test (n, m) ksize (Finite s) (Finite a) (Finite c) = Ok r
       ∧ acceptance_threshold_with_coverage r = Finite (inject_Z t)
       ∧ (in_sample_est r = true ↔ t ≤ m ∧ m ≠ 0 ∧ t ≠ 0)
       ∧ p_vals r = Finite 1)
  ∧ (∃ r,
       single_hyp_test (0, 0) ksize (Finite s) (Finite a) (Finite c) = Ok r
       ∧ in_sample_est r = false
       ∧ p_vals r = Finite 1
       ∧ num_exclusive_kmers_to_genome r = 0
       ∧ num_exclusive_kmers_to_genome_coverage r = 0
       ∧ num_matches r = 0).
Proof.
  intros Hk Hs0 Hs1 Ha0 Ha1 Hc0 Hc1. split.
  - intros n m Hn Hm.
    destruct (single_hyp_test_on_domain betaincinv float_pow n m ksize s a c)
      as (r & t & Hr & Ht & Hest & Hp & _); try done.
    exists r, (Z.of_nat t). split; [exact Hr|]. split; [exact Ht|].
    split; [exact Hest|]. rewrite Hp. apply cdf_above_support; (done || lia).
  - destruct (single_hyp_test_on_domain betaincinv float_pow 0 0 ksize s a c)
      as (r & t & Hr & Ht & Hest & Hp & Hn & Hnc & Hm); try done.
    exists r. split; [exact Hr|]. split; [|split; [|split; [|split]]].
    + destruct (in_sample_est r); [|done].
      destruct Hest as [Hest _]. destruct (Hest eq_refl) as (_ & H0 & _). done.
    + rewrite Hp. apply cdf_above_support; (done || lia).
    + exact Hn.
    + rewrite Hnc. by rewrite Z.mul_0_l.
    + exact Hm.
Qed.

End tester_totality.

Section alt_mut_rate_properties.

Variable betaincinv : pyfloat → pyfloat → pyfloat → pyfloat.
Variable float_pow : pyfloat → pyfloat → pyfloat.

(** A power of nan with an exponent other than zero is nan. *)
Hypothesis float_pow_nan : ∀ y, ¬ (y == 0)%Q → float_pow NaN (Finite y) = NaN.

Local Abbreviation get_alt_mut_rate := (Tester.get_alt_mut_rate betaincinv float_pow).

(** C6: for a k-mer size of at least one [get_alt_mut_rate] does not
    raise; it returns [1 - (1 - I^-1(nu - thresh, 1 + thresh; s))^(1/ksize)]
    when that is a number and the sentinel -1 when it is nan, which it is
    whenever the inverse incomplete beta function is nan. *)
Theorem get_alt_mut_rate_sentinel (nu thresh ksize : Z) (significance : pyfloat) :
  1 ≤ ksize →
  let inv := betaincinv (Finite (inject_Z nu - inject_Z thresh))
               (Finite (inject_Z 1 + inject_Z thresh)) significance in
  let mut := Py.float_sub (Finite 1)
               (float_pow (Py.float_sub (Finite 1) inv)
                  (Finite (inject_Z 1 / inject_Z ksize))) in
  ∃ v, get_alt_mut_rate nu (Py.float_of_int thresh) ksize significance = Ok v
       ∧ (mut ≠ NaN → v = mut)
       ∧ (mut = NaN → v = Finite (inject_Z (-1)))
       ∧ (inv = NaN → v = Finite (inject_Z (-1))).
Proof.
  intros Hk. cbn zeta.
  rewrite (get_alt_mut_rate_ok betaincinv float_pow) by lia. cbn zeta.
  change (Py.float_sub (Py.float_of_int nu) (Py.float_of_int thresh))
    with (Finite (inject_Z nu - inject_Z thresh)).
  change (Py.float_add (Py.float_of_int 1) (Py.float_of_int thresh))
    with (Finite (inject_Z 1 + inject_Z thresh)).
  change (Py.float_of_int 1) with (Finite 1).
  set (inv := betaincinv _ _ significance).
  set (mut := Py.float_sub (Finite 1) (float_pow _ _)).
  eexists. split; [reflexivity|].
  assert (Hnan : mut = NaN → (if Py.isnan mut then Finite (inject_Z (-1)) else mut)
                              = Finite (inject_Z (-1))) by (by intros ->).
  split; [|split; [exact Hnan|]].
  - intros Hnum. by destruct mut.
  - intros Hinv. apply Hnan. unfold mut. rewrite Hinv. cbn [Py.float_sub].
    rewrite float_pow_nan; [done|].
    intros H0. assert (Hk' : (0 < inject_Z ksize)%Q)
      by (unfold Qlt; cbn; lia).
    assert (H1 : (0 < inject_Z 1 / inject_Z ksize)%Q).
    { apply Qlt_shift_div_l; [done|]. rewrite Qmult_0_l. reflexivity. }
    rewrite H0 in H1. by apply Qlt_irrefl in H1.
Qed.

End alt_mut_rate_properties.

(** ** Runs of the tester on concrete inputs *)

Section tester_runs.

Import binom.

Local Abbreviation single_hyp_test :=
  (Tester.single_hyp_test Numeric.betaincinv Numeric.float_pow).
Local Abbreviation get_alt_mut_rate :=
  (Tester.get_alt_mut_rate Numeric.betaincinv Numeric.float_pow).

Local Ltac numbers := first [lia | unfold Qlt, Qle; cbn; lia].

(** 20 exclusive hashes, 18 matched, ANI 0.9, k = 2, significance 0.99,
    full coverage: the threshold is 12 and the genome is called present. *)
Example single_hyp_test_present :
  ∃ r, single_hyp_test (20, 18) 2 (Finite (99 # 100)) (Finite (9 # 10)) (Finite 1) = Ok r
       ∧ in_sample_est r = true
       ∧ acceptance_threshold_with_coverage r = Finite (inject_Z 12)
       ∧ num_exclusive_kmers_to_genome_coverage r = 20.
Proof. eexists. split; [vm_compute; reflexivity|]. cbn. repeat split. Qed.

(** No match: never present. *)
Example single_hyp_test_no_match :
  ∃ r, single_hyp_test (20, 0) 2 (Finite (99 # 100)) (Finite (9 # 10)) (Finite 1) = Ok r
       ∧ in_sample_est r = false.
Proof. eexists. split; [vm_compute; reflexivity|]. reflexivity. Qed.

(** A threshold of zero: not present although 9 of 10 hashes match. *)
Example single_hyp_test_zero_threshold :
  ∃ r, single_hyp_test (10, 9) 2 (Finite (99 # 100)) (Finite (1 # 2)) (Finite 1) = Ok r
       ∧ acceptance_threshold_with_coverage r = Finite (inject_Z 0)
       ∧ in_sample_est r = false.
Proof. eexists. split; [vm_compute; reflexivity|]. cbn. repeat split. Qed.

(** A k-mer size of zero raises in [1 / ksize]. *)
Example single_hyp_test_ksize_zero :
  single_hyp_test (10, 9) 0 (Finite (99 # 100)) (Finite (1 # 2)) (Finite 1)
  = Raise ZeroDivisionError.
Proof. vm_compute. reflexivity. Qed.

Lemma single_hyp_test_presence_witness :
  ∃ r (t : Z),
    single_hyp_test (20, 18) 2 (Finite (99 # 100)) (Finite (9 # 10)) (Finite 1) = Ok r
    ∧ acceptance_threshold_with_coverage r = Finite (inject_Z t)
    ∧ (in_sample_est r = true ↔ t ≤ 18 ∧ 18 ≠ 0 ∧ t ≠ 0)
    ∧ (18 = 0 → in_sample_est r = false).
Proof.
  apply (single_hyp_test_presence Numeric.betaincinv Numeric.float_pow
           20 18 2 (99 # 100) (9 # 10) 1); numbers.
Defined.



Example acceptance_threshold_counterexample_run :
  ∃ r, single_hyp_test (1, 0) 1 (Finite (3 # 4)) (Finite (1 # 2)) (Finite 1) = Ok r
       ∧ acceptance_threshold_with_coverage r = Finite (inject_Z 0)
       ∧ num_exclusive_kmers_to_genome_coverage r = 1
       ∧ cdf_Q 0 1 ((1 # 2) ^ 1) = (1 # 2)%Q
       ∧ prob_fewer_than 0 1 ((1 # 2) ^ 1) = 0%Q.
Proof. eexists. split; [vm_compute; reflexivity|]. cbn. repeat split. Qed.

Lemma p_value_unadjusted_witness :
  ∃ r,
    single_hyp_test (20, 18) 2 (Finite (99 # 100)) (Finite (9 # 10)) (Finite (1 # 2)) = Ok r
    ∧ p_vals r = cdf (Py.float_of_int 18) 20 (Finite ((9 # 10) ^ 2))
    ∧ (18 < 20 → p_vals r = Finite (cdf_Q (Z.to_nat 18) (Z.to_nat 20) ((9 # 10) ^ 2)))
    ∧ (20 ≤ 18 → p_vals r = Finite 1).
Proof.
  apply (p_value_unadjusted Numeric.betaincinv Numeric.float_pow
           20 18 2 (99 # 100) (9 # 10) (1 # 2)); numbers.
Defined.

Lemma coverage_monotone_witness :
  ∃ r_c r_1 (t_c t_1 : Z),
    single_hyp_test (20, 18) 2 (Finite (99 # 100)) (Finite (9 # 10)) (Finite (1 # 2)) = Ok r_c
    ∧ single_hyp_test (20, 18) 2 (Finite (99 # 100)) (Finite (9 # 10)) (Finite 1) = Ok r_1
    ∧ num_exclusive_kmers_to_genome_coverage r_c ≤ 20
    ∧ num_exclusive_kmers_to_genome_coverage r_1 = 20
    ∧ acceptance_threshold_with_coverage r_c = Finite (inject_Z t_c)
    ∧ acceptance_threshold_with_coverage r_1 = Finite (inject_Z t_1)
    ∧ t_c ≤ t_1.
Proof.
  apply (coverage_monotone Numeric.betaincinv Numeric.float_pow
           20 18 2 (99 # 100) (9 # 10) (1 # 2)); numbers.
Defined.

Lemma single_hyp_test_boundary_witness :
  (∀ n m, 0 ≤ n → n < m →
     ∃ r (t : Z),
       single_hyp_test (n, m) 2 (Finite (99 # 100)) (Finite (9 # 10)) (Finite 1) = Ok r
       ∧ acceptance_threshold_with_coverage r = Finite (inject_Z t)
       ∧ (in_sample_est r = true ↔ t ≤ m ∧ m ≠ 0 ∧ t ≠ 0)
       ∧ p_vals r = Finite 1)
  ∧ (∃ r,
       single_hyp_test (0, 0) 2 (Finite (99 # 100)) (Finite (9 # 10)) (Finite 1) = Ok r
       ∧ in_sample_est r = false
       ∧ p_vals r = Finite 1
       ∧ num_exclusive_kmers_to_genome r = 0
       ∧ num_exclusive_kmers_to_genome_coverage r = 0
       ∧ num_matches r = 0).
Proof.
  apply (single_hyp_test_boundary Numeric.betaincinv Numeric.float_pow
           2 (99 # 100) (9 # 10) 1); numbers.
Defined.

(** More matches than exclusive hashes: a result, p-value 1. *)
Example single_hyp_test_more_matches :
  ∃ r, single_hyp_test (5, 7) 2 (Finite (99 # 100)) (Finite (9 # 10)) (Finite 1) = Ok r
       ∧ p_vals r = Finite 1
       ∧ in_sample_est r = true.
Proof. eexists. split; [vm_compute; reflexivity|]. cbn. repeat split. Qed.

(** The pair (0, 0): a result, not present, and the sentinel -1 for the
    alternative mutation rate, the inverse beta function being undefined
    at its first parameter 0. *)
Example single_hyp_test_zero_zero :
  ∃ r, single_hyp_test (0, 0) 2 (Finite (99 # 100)) (Finite (9 # 10)) (Finite 1) = Ok r
       ∧ in_sample_est r = false
       ∧ alt_confidence_mut_rate_with_coverage r = Finite (inject_Z (-1)).
Proof. eexists. split; [vm_compute; reflexivity|]. cbn. repeat split. Qed.

Lemma numeric_float_pow_nan y :
  ¬ (y == 0)%Q → Numeric.float_pow NaN (Finite y) = NaN.
Proof.
  intros Hy. unfold Numeric.float_pow.
  destruct (Qeq_bool y 0) eqn:E; [|done]. by apply Qeq_bool_eq in E.
Qed.

Lemma get_alt_mut_rate_sentinel_witness :
  let inv := Numeric.betaincinv (Finite (inject_Z 1 - inject_Z 0))
               (Finite (inject_Z 1 + inject_Z 0)) (Finite (1 # 4)) in
  let mut := Py.float_sub (Finite 1)
               (Numeric.float_pow (Py.float_sub (Finite 1) inv)
                  (Finite (inject_Z 1 / inject_Z 1))) in
  ∃ v, get_alt_mut_rate 1 (Py.float_of_int 0) 1 (Finite (1 # 4)) = Ok v
       ∧ (mut ≠ NaN → v = mut)
       ∧ (mut = NaN → v = Finite (inject_Z (-1)))
       ∧ (inv = NaN → v = Finite (inject_Z (-1))).
Proof.
  apply (get_alt_mut_rate_sentinel Numeric.betaincinv Numeric.float_pow
           numeric_float_pow_nan 1 0 1 (Finite (1 # 4))); numbers.
Defined.

(** At [nu = thresh] the first parameter of the inverse beta function is
    0: undefined, and the sentinel comes back. *)
Example get_alt_mut_rate_degenerate :
  get_alt_mut_rate 3 (Py.float_of_int 3) 2 (Finite (99 # 100))
  = Ok (Finite (inject_Z (-1))).
Proof. vm_compute. reflexivity. Qed.

Example get_alt_mut_rate_number :
  get_alt_mut_rate 1 (Py.float_of_int 0) 1 (Finite (1 # 4)) = Ok (Finite (1 # 4)).
Proof. vm_compute. reflexivity. Qed.

End tester_runs.

(** ** Overlap prefilter *)

Section drop_duplicates_facts.

Context {A : Type} `{EqDecision A}.

Lemma drop_duplicates_from_spec (l : list A) : ∀ seen,
  NoDup (drop_duplicates_from seen l)
  ∧ ∀ x, x ∈ drop_duplicates_from seen l ↔ x ∈ l ∧ x ∉ seen.
Proof.
  induction l as [|y l IH]; intros seen; cbn [drop_duplicates_from].
  - split; [constructor|]. intros x. rewrite elem_of_nil. tauto.
  - destruct (decide (y ∈ seen)) as [Hin|Hnin].
    + destruct (IH seen) as [Hnd Hel]. split; [done|].
      intros x. rewrite Hel, elem_of_cons. split; [tauto|].
      intros [[->|Hx] Hs]; [done|tauto].
    + destruct (IH (y :: seen)) as [Hnd Hel]. split.
      * constructor; [|done]. rewrite Hel, elem_of_cons. tauto.
      * intros x. rewrite !elem_of_cons, Hel, elem_of_cons.
        destruct (decide (x = y)) as [->|Hne]; [tauto|]. tauto.
Qed.

Lemma drop_duplicates_NoDup (l : list A) : NoDup (drop_duplicates l).
Proof. apply drop_duplicates_from_spec. Qed.

Lemma elem_of_drop_duplicates (l : list A) x : x ∈ drop_duplicates l ↔ x ∈ l.
Proof.
  unfold drop_duplicates. rewrite (proj2 (drop_duplicates_from_spec l [])).
  rewrite elem_of_nil. tauto.
Qed.

End drop_duplicates_facts.

Section prefilter_facts.

Context {Cell : Type} `{EqDecision Cell}.
Variable zip_signature_files : string → list string.
Variable sourmash_multisearch :
  list string → list string → Z → Z → Z → Z * list (multisearch_row Cell).

Local Abbreviation get_organisms_with_nonzero_overlap :=
  (Prefilter.get_organisms_with_nonzero_overlap zip_signature_files sourmash_multisearch).

(** The table the tool wrote for this call. *)
Local Abbreviation multisearch_table manifest sample_file scale ksize num_threads
    path_to_genome_temp_dir path_to_sample_temp_dir :=
  (sourmash_multisearch
     ((λ sig_file, path_join (path_join path_to_sample_temp_dir "signatures") sig_file)
      <$> zip_signature_files sample_file)
     ((λ r, signature_path path_to_genome_temp_dir (md5sum r)) <$> manifest)
     scale ksize num_threads).

Lemma get_organisms_with_nonzero_overlap_eq manifest sample_file scale ksize
    num_threads gdir sdir :
  get_organisms_with_nonzero_overlap manifest sample_file scale ksize num_threads gdir sdir
  = let out := multisearch_table manifest sample_file scale ksize num_threads gdir sdir in
    if decide (out.1 ≠ 0) then Raise ValueError
    else Ok (match_name <$> drop_duplicates out.2).
Proof.
  unfold Prefilter.get_organisms_with_nonzero_overlap.
  by destruct (sourmash_multisearch _ _ _ _ _) as [exit_code table].
Qed.

(** C9, as the code has it: when the tool succeeds the function returns
    the match names of the distinct rows of the table, every matched name
    and no other; no name comes twice when rows that agree on the match name
    agree on every column. *)
Theorem get_organisms_with_nonzero_overlap_distinct manifest sample_file scale
    ksize num_threads gdir sdir :
  let out := multisearch_table manifest sample_file scale ksize num_threads gdir sdir in
  out.1 = 0 →
  ∃ names,
    get_organisms_with_nonzero_overlap manifest sample_file scale ksize
      num_threads gdir sdir = Ok names
    ∧ names = match_name <$> drop_duplicates out.2
    ∧ NoDup (drop_duplicates out.2)
    ∧ (∀ name, name ∈ names ↔ ∃ r, r ∈ out.2 ∧ match_name r = name)
    ∧ ((∀ r1 r2, r1 ∈ out.2 → r2 ∈ out.2 → match_name r1 = match_name r2 → r1 = r2)
       → NoDup names).
Proof.
  cbn zeta. intros Hexit.
  rewrite get_organisms_with_nonzero_overlap_eq. cbn zeta.
  rewrite decide_False by (intros Hne; apply Hne, Hexit).
  eexists. split; [reflexivity|]. split; [reflexivity|].
  split; [apply drop_duplicates_NoDup|]. split.
  - intros name. rewrite list_elem_of_fmap. split.
    + intros (r & -> & Hr). exists r. by rewrite <- elem_of_drop_duplicates.
    + intros (r & Hr & <-). exists r. by rewrite elem_of_drop_duplicates.
  - intros Hkey. apply NoDup_fmap_2_strong; [|apply drop_duplicates_NoDup].
    intros r1 r2. rewrite !elem_of_drop_duplicates. apply Hkey.
Qed.

(** A failing tool makes the step fail. *)
Lemma get_organisms_with_nonzero_overlap_failure manifest sample_file scale
    ksize num_threads gdir sdir :
  (multisearch_table manifest sample_file scale ksize num_threads gdir sdir).1 ≠ 0 →
  get_organisms_with_nonzero_overlap manifest sample_file scale ksize
    num_threads gdir sdir = Raise ValueError.
Proof.
  intros Hexit. rewrite get_organisms_with_nonzero_overlap_eq. cbn zeta.
  by rewrite decide_True.
Qed.

End prefilter_facts.

Section prefilter_runs.

(** Genome A matches two query signatures: its name is returned twice. *)
Lemma get_organisms_with_nonzero_overlap_counterexample :
  ∃ names,
    Prefilter.get_organisms_with_nonzero_overlap Tool.zip_signature_files
      Tool.sourmash_multisearch Demo.manifest "s.sig.zip" 1000 31 4 "g" "tmp"
    = Ok names
    ∧ ¬ NoDup names.
Proof.
  exists ["A"; "C"; "A"]%string. split; [vm_compute; reflexivity|].
  intros Hnd. apply NoDup_cons in Hnd as [Hnin _]. apply Hnin.
  right. left.
Qed.

Lemma get_organisms_with_nonzero_overlap_distinct_witness :
  let table := [Tool.hit "q1" "A"; Tool.hit "q1" "C"; Tool.hit "q1" "A"] in
  ∃ names,
    Prefilter.get_organisms_with_nonzero_overlap Tool.zip_signature_files
      Tool.sourmash_multisearch_single Demo.manifest "s.sig.zip" 1000 31 4 "g" "tmp"
    = Ok names
    ∧ names = match_name <$> drop_duplicates table
    ∧ NoDup (drop_duplicates table)
    ∧ (∀ name, name ∈ names ↔ ∃ r, r ∈ table ∧ match_name r = name)
    ∧ ((∀ r1 r2, r1 ∈ table → r2 ∈ table → match_name r1 = match_name r2 → r1 = r2)
       → NoDup names).
Proof.
  apply (get_organisms_with_nonzero_overlap_distinct Tool.zip_signature_files
           Tool.sourmash_multisearch_single Demo.manifest "s.sig.zip" 1000 31 4 "g" "tmp").
  reflexivity.
Defined.

Example get_organisms_with_nonzero_overlap_single :
  Prefilter.get_organisms_with_nonzero_overlap Tool.zip_signature_files
    Tool.sourmash_multisearch_single Demo.manifest "s.sig.zip" 1000 31 4 "g" "tmp"
  = Ok ["A"; "C"]%string.
Proof. vm_compute. reflexivity. Qed.

Example get_organisms_with_nonzero_overlap_fails :
  Prefilter.get_organisms_with_nonzero_overlap Tool.zip_signature_files
    Tool.sourmash_multisearch_failing Demo.manifest "s.sig.zip" 1000 31 4 "g" "tmp"
  = Raise ValueError.
Proof. vm_compute. reflexivity. Qed.

End prefilter_runs.

(** ** Coverage sweep *)

Section grouping_facts.

Import Sweep.

Local Abbreviation fresh key groups :=
  (Forall (λ g : pyfloat * list result_row, same_coverage g.1 key = false) groups).

Lemma group_insert_fresh key row groups :
  fresh key groups → group_insert key row groups = groups ++ [(key, [row])].
Proof.
  induction 1 as [|[k rows] groups Hk _ IH]; [done|].
  cbn in *. by rewrite Hk, IH.
Qed.

Lemma group_insert_last key row rows groups :
  fresh key groups → same_coverage key key = true →
  group_insert key row (groups ++ [(key, rows)]) = groups ++ [(key, rows ++ [row])].
Proof.
  intros Hfresh Hrefl. induction Hfresh as [|[k rows'] groups Hk _ IH].
  - cbn. by rewrite Hrefl.
  - cbn in *. by rewrite Hk, IH.
Qed.

Lemma group_block_tail key groups (rest : list result_row) : ∀ rows,
  fresh key groups → same_coverage key key = true →
  Forall (λ row, coverage_of row = key) rest →
  foldl (λ groups row, group_insert (coverage_of row) row groups)
        (groups ++ [(key, rows)]) rest
  = groups ++ [(key, rows ++ rest)].
Proof.
  induction rest as [|row rest IH]; intros rows Hfresh Hrefl Hrest.
  - by rewrite app_nil_r.
  - apply Forall_cons in Hrest as [Hrow Hrest]. cbn [foldl].
    rewrite Hrow, group_insert_last by done.
    rewrite IH by done. by rewrite <- (assoc_L (++)).
Qed.

(** A table whose rows all carry the coverage [key], not met before, adds
    one group: itself. *)
Lemma group_block key groups (block : list result_row) :
  block ≠ [] → fresh key groups → same_coverage key key = true →
  Forall (λ row, coverage_of row = key) block →
  foldl (λ groups row, group_insert (coverage_of row) row groups) groups block
  = groups ++ [(key, block)].
Proof.
  intros Hne Hfresh Hrefl Hblock. destruct block as [|row rest]; [done|].
  apply Forall_cons in Hblock as [Hrow Hrest]. cbn [foldl].
  rewrite Hrow, group_insert_fresh by done.
  by rewrite group_block_tail.
Qed.

Lemma group_blocks (covs : list pyfloat) : ∀ (tables : list (list result_row)) groups,
  Forall2 (λ c table, table ≠ [] ∧ Forall (λ row, coverage_of row = c) table)
          covs tables →
  distinct_coverages covs →
  Forall (λ c, same_coverage c c = true) covs →
  Forall (λ c, fresh c groups) covs →
  foldl (λ groups row, group_insert (coverage_of row) row groups) groups (concat tables)
  = groups ++ zip covs tables.
Proof.
  induction covs as [|c covs IH]; intros tables groups Htables Hdist Hrefl Hfresh.
  - apply Forall2_nil_inv_l in Htables as ->. cbn. by rewrite app_nil_r.
  - apply Forall2_cons_inv_l in Htables as (table & tables' & [Hne Hrows] & Htables & ->).
    destruct Hdist as [Hc Hdist].
    apply Forall_cons in Hrefl as [Hcc Hrefl].
    apply Forall_cons in Hfresh as [Hcfresh Hfresh].
    cbn [concat zip_with]. rewrite foldl_app, (group_block c groups table) by done.
    rewrite IH; [by rewrite <- (assoc_L (++))|done|done|done|].
    rewrite Forall_forall in Hfresh, Hc. apply Forall_forall. intros c' Hc'.
    apply Forall_app. split; [by apply Hfresh|].
    constructor; [|constructor]. cbn. by apply Hc.
Qed.

End grouping_facts.

Section sweep_facts.

Import Sweep.

Context {Cell : Type} `{EqDecision Cell}.
Variable load_signature_with_ksize : string → Z → SourmashSignature.
Variable betaincinv : pyfloat → pyfloat → pyfloat → pyfloat.
Variable float_pow : pyfloat → pyfloat → pyfloat.
Variable zip_signature_files : string → list string.
Variable sourmash_multisearch :
  list string → list string → Z → Z → Z → Z * list (multisearch_row Cell).

Local Abbreviation single_hyp_test := (Tester.single_hyp_test betaincinv float_pow).
Local Abbreviation sweep_body := (Sweep.sweep_body betaincinv float_pow).
Local Abbreviation hypothesis_recovery :=
  (Sweep.hypothesis_recovery load_signature_with_ksize betaincinv float_pow
     zip_signature_files sourmash_multisearch).
Local Abbreviation candidate_set :=
  (Sweep.candidate_set zip_signature_files sourmash_multisearch).

Lemma starmap_ok {A B : Type} (f : A → result B) (l : list A) :
  (∀ x, x ∈ l → ∃ y, f x = Ok y) →
  ∃ ys, starmap f l = Ok ys ∧ length ys = length l.
Proof.
  induction l as [|x l IH]; intros Hf.
  - by exists [].
  - destruct (Hf x ltac:(left)) as [y Hy].
    destruct IH as (ys & Hys & Hlen); [intros x' Hx'; apply Hf; by right|].
    exists (y :: ys). cbn [starmap]. rewrite Hy. cbn [mbind result_bind].
    rewrite Hys. cbn. by rewrite Hlen.
Qed.

Lemma set_min_coverage_overwrite c c' (man : list manifest_row) :
  set_min_coverage c <$> (set_min_coverage c' <$> man) = set_min_coverage c <$> man.
Proof. rewrite <- list_fmap_compose. by apply list_fmap_ext. Qed.

Lemma manifest_columns_concat_columns man results :
  length man = length results →
  manifest_columns <$> concat_columns man results = man.
Proof.
  intros Hlen. unfold concat_columns. apply fmap_zip_with_l; [done|lia].
Qed.

Lemma coverage_of_concat_columns c man : ∀ results,
  Forall (λ row, coverage_of row = c)
         (concat_columns (set_min_coverage c <$> man) results).
Proof.
  induction man as [|r man IH]; intros [|res results]; cbn; try constructor.
  - done.
  - apply IH.
Qed.

Lemma length_concat_columns man results :
  length man = length results → length (concat_columns man results) = length man.
Proof. intros Hlen. unfold concat_columns. rewrite length_zip_with. lia. Qed.

(** One round of the sweep at a coverage that is a number. *)
Lemma sweep_body_ok infos ksize significance ani_thresh num_threads man acc (c : Q) :
  1 ≤ num_threads → 1 ≤ ksize →
  ∃ results,
    length results = length infos
    ∧ sweep_body infos ksize significance ani_thresh num_threads (man, acc) (Finite c)
      = Ok (set_min_coverage (Finite c) <$> man,
            acc ++ [concat_columns (set_min_coverage (Finite c) <$> man) results]).
Proof.
  intros Ht Hk.
  destruct (starmap_ok
    (λ info, single_hyp_test info ksize significance ani_thresh (Finite c)) infos)
    as (results & Hres & Hlen).
  { intros [n m] _.
    destruct (single_hyp_test_ok betaincinv float_pow n m ksize significance ani_thresh c Hk)
      as (r & Hr & _). by exists r. }
  exists results. split; [done|]. unfold Sweep.sweep_body.
  rewrite decide_False by lia. rewrite Hres. done.
Qed.

(** The loop over the coverage values. *)
Lemma sweep_ok infos ksize significance ani_thresh num_threads covs :
  1 ≤ num_threads → 1 ≤ ksize → Forall (λ c, Py.isnan c = false) covs →
  ∀ man acc, length infos = length man →
  ∃ man' tables,
    for_each (sweep_body infos ksize significance ani_thresh num_threads) (man, acc) covs
    = Ok (man', acc ++ tables)
    ∧ Forall2 (λ c table,
                 manifest_columns <$> table = set_min_coverage c <$> man
                 ∧ length table = length man
                 ∧ Forall (λ row, coverage_of row = c) table)
              covs tables.
Proof.
  intros Ht Hk Hcovs. induction Hcovs as [|c covs Hc _ IH]; intros man acc Hlen.
  - exists man, []. cbn. rewrite app_nil_r. split; [done|constructor].
  - destruct c as [c|]; [|done].
    destruct (sweep_body_ok infos ksize significance ani_thresh num_threads man acc c Ht Hk)
      as (results & Hres & Hbody).
    cbn [for_each]. rewrite Hbody. cbn [mbind result_bind].
    destruct (IH (set_min_coverage (Finite c) <$> man)
                 (acc ++ [concat_columns (set_min_coverage (Finite c) <$> man) results]))
      as (man' & tables & Hloop & Htables); [by rewrite length_fmap|].
    exists man', (concat_columns (set_min_coverage (Finite c) <$> man) results :: tables).
    split.
    + rewrite Hloop. by rewrite <- (assoc_L (++)).
    + constructor.
      * split; [|split].
        -- apply manifest_columns_concat_columns. rewrite length_fmap. lia.
        -- rewrite length_concat_columns, length_fmap; [done|].
           rewrite length_fmap. lia.
        -- apply coverage_of_concat_columns.
      * eapply Forall2_impl; [exact Htables|].
        intros c' table (Hcols & Hlen' & Hrows).
        rewrite set_min_coverage_overwrite, length_fmap in *. done.
Qed.

(** A run of [hypothesis_recovery] whose external search succeeds, with at
    least one worker, a k-mer size of at least one and coverage values that
    are numbers: one table per coverage value, in order; the manifest
    columns of each table are the candidate rows, in their order, tagged
    with the coverage value. *)
Lemma hypothesis_recovery_tables manifest sample_file sample_sig gdir covs
    scale ksize significance ani_thresh num_threads :
  (∀ queries against sc k th, (sourmash_multisearch queries against sc k th).1 = 0) →
  1 ≤ num_threads → 1 ≤ ksize → Forall (λ c, Py.isnan c = false) covs →
  let candidates := candidate_set manifest sample_file gdir scale ksize num_threads in
  ∃ tables,
    hypothesis_recovery manifest (sample_file, sample_sig) gdir covs scale ksize
      significance ani_thresh num_threads = Ok tables
    ∧ Forall2 (λ c table,
                 manifest_columns <$> table = set_min_coverage c <$> candidates
                 ∧ length table = length candidates
                 ∧ Forall (λ row, coverage_of row = c) table)
              covs tables.
Proof.
  intros Htool Ht Hk Hcovs. cbn zeta.
  unfold Sweep.hypothesis_recovery, Sweep.candidate_set.
  rewrite get_organisms_with_nonzero_overlap_eq. cbn zeta.
  rewrite decide_False by (intros Hne; apply Hne, Htool).
  cbn [mbind result_bind].
  rewrite get_exclusive_hashes_info.
  set (names := match_name <$> drop_duplicates _).
  set (sub := Exclusive.sub_manifest_of manifest names).
  set (infos := _ <$> sub).
  destruct (sweep_ok infos ksize significance ani_thresh
              num_threads covs Ht Hk Hcovs sub [])
    as (man' & tables & Hloop & Htables).
  { unfold infos. by rewrite length_fmap. }
  exists tables. rewrite Hloop. done.
Qed.

(** C10, as the code has it: one table per coverage value, in the order of
    the coverage list, each tagged with its coverage value and holding one
    row per candidate genome in the candidates' order; when the coverage
    values are pairwise different and there is at least one candidate,
    grouping the concatenated tables by coverage value gives back the
    coverage list with one table each. *)
Theorem hypothesis_recovery_round_trip manifest sample_file sample_sig gdir covs
    scale ksize (s a : Q) num_threads :
  (∀ queries against sc k th, (sourmash_multisearch queries against sc k th).1 = 0) →
  1 ≤ num_threads → 1 ≤ ksize →
  (0 < s)%Q → (s < 1)%Q → (0 < a)%Q → (a < 1)%Q →
  Forall coverage_fraction covs →
  let candidates := candidate_set manifest sample_file gdir scale ksize num_threads in
  ∃ tables,
    hypothesis_recovery manifest (sample_file, sample_sig) gdir covs scale ksize
      (Finite s) (Finite a) num_threads = Ok tables
    ∧ length tables = length covs
    ∧ (∀ i c, covs !! i = Some c →
         ∃ table, tables !! i = Some table
                  ∧ manifest_columns <$> table = set_min_coverage c <$> candidates
                  ∧ Forall (λ row, coverage_of row = c) table)
    ∧ (distinct_coverages covs → candidates ≠ [] →
       group_by_coverage (concat tables) = zip covs tables).
Proof.
  intros Htool Ht Hk _ _ _ _ Hfrac. cbn zeta.
  assert (Hcovs : Forall (λ c, Py.isnan c = false) covs).
  { eapply Forall_impl; [exact Hfrac|]. by intros [q|]. }
  destruct (hypothesis_recovery_tables manifest sample_file sample_sig gdir covs
              scale ksize (Finite s) (Finite a) num_threads Htool Ht Hk Hcovs)
    as (tables & Hrun & Htables).
  exists tables. split; [exact Hrun|]. split; [|split].
  - symmetry. by eapply Forall2_length.
  - intros i c Hi.
    destruct (Forall2_lookup_l _ _ _ _ _ Htables Hi)
      as (table & Hti & Hcols & _ & Hrows).
    by exists table.
  - intros Hdist Hne. unfold group_by_coverage.
    rewrite (group_blocks covs tables []); [done| |done| |].
    + eapply Forall2_impl; [exact Htables|].
      intros c table (_ & Hlen & Hrows). split; [|done].
      intros ->. apply Hne. by apply nil_length_inv.
    + eapply Forall_impl; [exact Hcovs|].
      intros [c|]; [|done]. intros _. apply Qeq_bool_refl.
    + apply Forall_forall. intros c _. constructor.
Qed.

End sweep_facts.

Section sweep_runs.

Import Sweep.

Local Abbreviation run tool covs :=
  (Sweep.hypothesis_recovery Demo.load Numeric.betaincinv Numeric.float_pow
     Tool.zip_signature_files tool Demo.manifest ("s.sig.zip"%string, Demo.sample)
     "g" covs 1000 2 (Finite (99 # 100)) (Finite (9 # 10)) 4).

(** Two coverage values, candidates A and C: two tables of two rows, the
    first tagged 1, the second 1/2, genomes in manifest order. *)
Example hypothesis_recovery_demo :
  ∃ tables,
    run Tool.sourmash_multisearch_single [Finite 1; Finite (1 # 2)] = Ok tables
    ∧ (λ table : list result_row,
         (λ row, (organism_name (manifest_columns row), coverage_of row,
                  num_exclusive_kmers_to_genome (test_columns row),
                  num_matches (test_columns row)))
         <$> table) <$> tables
      = [[("A"%string, Finite 1, 2, 2); ("C"%string, Finite 1, 2, 1)];
         [("A"%string, Finite (1 # 2), 2, 2); ("C"%string, Finite (1 # 2), 2, 1)]].
Proof. eexists. split; [vm_compute; reflexivity|]. vm_compute. reflexivity. Qed.

(** The round trip fails when a coverage value comes twice (one group, two
    tables) and when there is no candidate (no row, so no group). *)
Lemma hypothesis_recovery_round_trip_counterexample :
  (∃ tables,
     run Tool.sourmash_multisearch_single [Finite 1; Finite 1] = Ok tables
     ∧ group_by_coverage (concat tables) ≠ zip [Finite 1; Finite 1] tables)
  ∧ (∃ tables,
       run Tool.sourmash_multisearch_no_hit [Finite 1; Finite (1 # 2)] = Ok tables
       ∧ group_by_coverage (concat tables) ≠ zip [Finite 1; Finite (1 # 2)] tables).
Proof.
  split.
  - eexists. split; [vm_compute; reflexivity|].
    intros Heq. apply (f_equal length) in Heq. vm_compute in Heq. discriminate Heq.
  - eexists. split; [vm_compute; reflexivity|].
    intros Heq. apply (f_equal length) in Heq. vm_compute in Heq. discriminate Heq.
Qed.

Lemma hypothesis_recovery_round_trip_witness :
  let covs := [Finite 1; Finite (1 # 2)] in
  let candidates :=
    Sweep.candidate_set Tool.zip_signature_files Tool.sourmash_multisearch_single
      Demo.manifest "s.sig.zip" "g" 1000 2 4 in
  ∃ tables,
    run Tool.sourmash_multisearch_single covs = Ok tables
    ∧ length tables = length covs
    ∧ (∀ i c, covs !! i = Some c →
         ∃ table, tables !! i = Some table
                  ∧ manifest_columns <$> table = set_min_coverage c <$> candidates
                  ∧ Forall (λ row, coverage_of row = c) table)
    ∧ (distinct_coverages covs → candidates ≠ [] →
       group_by_coverage (concat tables) = zip covs tables).
Proof.
  apply (hypothesis_recovery_round_trip Demo.load Numeric.betaincinv
           Numeric.float_pow Tool.zip_signature_files
           Tool.sourmash_multisearch_single).
  - intros. reflexivity.
  - lia.
  - lia.
  - reflexivity.
  - reflexivity.
  - reflexivity.
  - reflexivity.
  - repeat constructor; unfold Qle; cbn; lia.
Defined.

(** The round trip on the demo run: two coverage values, two groups, each
    one of the tables. *)
Example hypothesis_recovery_round_trip_demo :
  ∃ tables,
    run Tool.sourmash_multisearch_single [Finite 1; Finite (1 # 2)] = Ok tables
    ∧ group_by_coverage (concat tables) = zip [Finite 1; Finite (1 # 2)] tables.
Proof. eexists. split; [vm_compute; reflexivity|]. vm_compute. reflexivity. Qed.

End sweep_runs.


(** * Part III: further properties of the code *)

(** ** Exclusive hash extractor *)

Section extractor_more.

Import Exclusive.

Variable load_signature_with_ksize : string → Z → SourmashSignature.

Local Abbreviation sketch_hashes := (Exclusive.sketch_hashes load_signature_with_ksize).
Local Abbreviation first_pass := (Exclusive.first_pass load_signature_with_ksize).
Local Abbreviation hash_stream := (Exclusive.hash_stream load_signature_with_ksize).
Local Abbreviation candidates_with := (Exclusive.candidates_with load_signature_with_ksize).
Local Abbreviation find_exclusive_hashes :=
  (Exclusive.find_exclusive_hashes load_signature_with_ksize).
Local Abbreviation get_exclusive_hashes :=
  (Exclusive.get_exclusive_hashes load_signature_with_ksize).

Lemma first_pass_multiple h md5s ksize dir :
  h ∈ (first_pass md5s ksize dir).2 ↔ (2 ≤ candidates_with h md5s ksize dir)%nat.
Proof.
  rewrite <- occ_stream. apply (first_pass_scanned _ md5s ksize dir h).
Qed.

Lemma candidates_with_pos h md5s ksize dir :
  (1 ≤ candidates_with h md5s ksize dir)%nat
  ↔ ∃ md5, md5 ∈ md5s ∧ h ∈ sketch_hashes dir md5 ksize.
Proof.
  unfold Exclusive.candidates_with. split.
  - intros Hpos.
    destruct (filter (λ md5, h ∈ sketch_hashes dir md5 ksize) md5s)
      as [|md5 rest] eqn:E; [cbn in Hpos; lia|].
    assert (Hin : md5 ∈ filter (λ md5, h ∈ sketch_hashes dir md5 ksize) md5s)
      by (rewrite E; left).
    apply list_elem_of_filter in Hin as [Hh Hmd5]. by exists md5.
  - intros (md5 & Hmd5 & Hh).
    assert (Hin : md5 ∈ filter (λ md5, h ∈ sketch_hashes dir md5 ksize) md5s)
      by (by apply list_elem_of_filter).
    destruct (filter _ md5s); [by apply elem_of_nil in Hin|cbn; lia].
Qed.

(** X1: after the first pass the two working sets are disjoint,
    [multiple_occurrence_hashes] holds exactly the hashes found in two or more
    candidates, and together the two sets hold exactly the hashes of the
    candidates' sketches. *)
Theorem first_pass_partition md5s ksize dir :
  let st := first_pass md5s ksize dir in
  st.1 ## st.2
  ∧ (∀ h, h ∈ st.2 ↔ (2 ≤ candidates_with h md5s ksize dir)%nat)
  ∧ (∀ h, h ∈ st.1 ∪ st.2 ↔ ∃ md5, md5 ∈ md5s ∧ h ∈ sketch_hashes dir md5 ksize).
Proof.
  cbn zeta. split; [|split].
  - intros h. rewrite first_pass_single, first_pass_multiple. lia.
  - intros h. apply first_pass_multiple.
  - intros h. rewrite elem_of_union, first_pass_single, first_pass_multiple.
    rewrite <- candidates_with_pos. lia.
Qed.

Lemma occ_Permutation h l l' : l ≡ₚ l' → occ h l = occ h l'.
Proof. intros Hp. unfold occ. by rewrite Hp. Qed.

Lemma scanned_unique stream st st' :
  scanned stream st → scanned stream st' → st = st'.
Proof.
  destruct st as [s m], st' as [s' m']. intros H H'. f_equal; apply set_eq; intros h.
  - destruct (H h) as [-> _]. destruct (H' h) as [-> _]. done.
  - destruct (H h) as [_ ->]. destruct (H' h) as [_ ->]. done.
Qed.

(** X2: the outcome of the first pass depends only on which hashes are
    scanned how often, not on the order: scanning the same hashes in any
    other order (another iteration order of the dicts, another order of the
    genomes) leaves the same two sets. *)
Theorem first_pass_any_order md5s ksize dir stream :
  stream ≡ₚ hash_stream md5s ksize dir →
  scan_sketch (∅, ∅) stream = first_pass md5s ksize dir.
Proof.
  intros Hp. apply (scanned_unique stream).
  - apply (scan_sketch_scanned stream [] (∅, ∅) scanned_empty).
  - intros h. rewrite (occ_Permutation h _ _ Hp).
    apply (first_pass_scanned _ md5s ksize dir h).
Qed.

Lemma find_exclusive_hashes_elem h md5 dir ksize single :
  h ∈ find_exclusive_hashes md5 dir ksize single
  ↔ h ∈ sketch_hashes dir md5 ksize ∧ h ∈ single.
Proof.
  unfold Exclusive.find_exclusive_hashes.
  rewrite elem_of_list_to_set, list_elem_of_filter. tauto.
Qed.

Lemma find_exclusive_hashes_size md5 dir ksize single :
  (size (find_exclusive_hashes md5 dir ksize single)
   ≤ length (sketch_hashes dir md5 ksize))%nat.
Proof.
  unfold Exclusive.find_exclusive_hashes.
  rewrite size_list_to_set by apply NoDup_filter, NoDup_dict_keys.
  apply length_filter.
Qed.

(** X3: one pair of counts per candidate row, and in every pair
    [0 <= num_exclusive_and_in_sample <= num_exclusive <= len(sketch)]: the
    extractor never reports more matches than exclusive hashes. *)
Theorem get_exclusive_hashes_bounds manifest names sample_sig ksize dir :
  let out := get_exclusive_hashes manifest names sample_sig ksize dir in
  Forall2 (λ r pair,
             0 ≤ pair.2 ≤ pair.1
             ∧ pair.1 ≤ Z.of_nat (length (sketch_hashes dir (md5sum r) ksize)))
          out.2 out.1.
Proof.
  cbn zeta. rewrite get_exclusive_hashes_info. cbn [fst snd].
  apply Forall2_fmap_r, Forall_Forall2_diag, Forall_forall. intros r _. cbn.
  split.
  - split; [lia|]. apply Nat2Z.inj_le, subseteq_size, intersection_subseteq_l.
  - apply Nat2Z.inj_le, find_exclusive_hashes_size.
Qed.

(** X4: what the two counts of a candidate count: [num_exclusive] is the
    number of hashes of its sketch that occur in the sketch of no other
    candidate, and [num_exclusive_and_in_sample] the number of those that are
    also hashes of the sample. *)
Theorem exclusive_counts_meaning manifest names sample_sig ksize dir i r pair :
  let out := get_exclusive_hashes manifest names sample_sig ksize dir in
  out.2 !! i = Some r → out.1 !! i = Some pair →
  let exclusive h := candidates_with h (md5sum <$> out.2) ksize dir = 1%nat in
  pair.1 = Z.of_nat (length (filter exclusive (sketch_hashes dir (md5sum r) ksize)))
  ∧ pair.2
    = Z.of_nat (length (filter
                          (λ h, exclusive h ∧ h ∈ dict_keys (hashes (minhash sample_sig)))
                          (sketch_hashes dir (md5sum r) ksize))).
Proof.
  cbn zeta. rewrite get_exclusive_hashes_info. cbn [fst snd].
  set (sub := sub_manifest_of manifest names).
  intros Hr Hpair. rewrite list_lookup_fmap, Hr in Hpair. cbn in Hpair.
  injection Hpair as <-. cbn [fst snd].
  set (single := (first_pass (md5sum <$> sub) ksize dir).1).
  set (sketch := sketch_hashes dir (md5sum r) ksize).
  assert (Hnd : NoDup sketch) by apply NoDup_dict_keys.
  split; f_equal.
  - unfold Exclusive.find_exclusive_hashes. fold sketch.
    rewrite size_list_to_set by by apply NoDup_filter.
    f_equal. apply list_filter_iff. intros h. apply first_pass_single.
  - transitivity (size (list_to_set (C := gset Z)
      (filter (λ h, candidates_with h (md5sum <$> sub) ksize dir = 1%nat
                    ∧ h ∈ dict_keys (hashes (minhash sample_sig))) sketch))).
    + f_equal. apply set_eq. intros h.
      rewrite elem_of_intersection, find_exclusive_hashes_elem, !elem_of_list_to_set,
        list_elem_of_filter.
      fold sketch. unfold single. rewrite first_pass_single. tauto.
    + by rewrite size_list_to_set by by apply NoDup_filter.
Qed.

Lemma exclusive_sizes_sum (single : gset Z) ksize dir (md5s : list string) :
  (∀ h, h ∈ single → (candidates_with h md5s ksize dir ≤ 1)%nat) →
  sum_list ((λ md5, size (find_exclusive_hashes md5 dir ksize single)) <$> md5s)
  = size (⋃ ((λ md5, find_exclusive_hashes md5 dir ksize single) <$> md5s)).
Proof.
  induction md5s as [|md5 md5s IH]; intros Hone.
  - cbn. by rewrite size_empty.
  - rewrite !fmap_cons, union_list_cons. cbn [sum_list sum_list_with].
    rewrite size_union.
    + rewrite <- IH; [done|]. intros h Hh. specialize (Hone h Hh).
      unfold Exclusive.candidates_with in *. rewrite filter_cons in Hone.
      destruct (decide (h ∈ sketch_hashes dir md5 ksize)); cbn in Hone; lia.
    + intros h [Hh Hs]%find_exclusive_hashes_elem Hrest.
      apply elem_of_union_list in Hrest as (X & HX & HhX).
      apply list_elem_of_fmap in HX as (md5' & -> & Hmd5').
      apply find_exclusive_hashes_elem in HhX as [Hh' _].
      assert (Hpos : (1 ≤ candidates_with h md5s ksize dir)%nat)
        by (apply candidates_with_pos; eauto).
      specialize (Hone h Hs). unfold Exclusive.candidates_with in *.
      rewrite filter_cons, decide_True in Hone by done. cbn in Hone. lia.
Qed.

Lemma exclusive_sets_cover md5s ksize dir :
  ⋃ ((λ md5, find_exclusive_hashes md5 dir ksize (first_pass md5s ksize dir).1)
     <$> md5s)
  = (first_pass md5s ksize dir).1.
Proof.
  apply set_eq. intros h. rewrite elem_of_union_list. split.
  - intros (X & HX & HhX). apply list_elem_of_fmap in HX as (md5 & -> & _).
    by apply find_exclusive_hashes_elem in HhX as [_ ?].
  - intros Hh. pose proof Hh as H1. rewrite first_pass_single in H1.
    destruct (proj1 (candidates_with_pos h md5s ksize dir) ltac:(lia))
      as (md5 & Hmd5 & Hin).
    eexists. split; [apply list_elem_of_fmap; by exists md5|].
    by apply find_exclusive_hashes_elem.
Qed.

Lemma sum_Z_of_nat (xs : list nat) :
  foldr Z.add 0 (Z.of_nat <$> xs) = Z.of_nat (sum_list xs).
Proof. induction xs as [|x xs IH]; [done|]. cbn. rewrite IH. lia. Qed.

(** X5: every seen-once hash is exclusive to exactly one candidate: the
    [num_exclusive] counts of all candidates add up to the size of
    [single_occurrence_hashes]. *)
Theorem exclusive_counts_sum manifest names sample_sig ksize dir :
  let out := get_exclusive_hashes manifest names sample_sig ksize dir in
  foldr Z.add 0 (out.1.*1)
  = Z.of_nat (size (first_pass (md5sum <$> out.2) ksize dir).1).
Proof.
  cbn zeta. rewrite get_exclusive_hashes_info. cbn [fst snd].
  set (sub := sub_manifest_of manifest names).
  set (single := (first_pass (md5sum <$> sub) ksize dir).1).
  transitivity (Z.of_nat (sum_list
    ((λ md5, size (find_exclusive_hashes md5 dir ksize single)) <$> (md5sum <$> sub)))).
  - rewrite <- sum_Z_of_nat, <- !list_fmap_compose. done.
  - f_equal. rewrite exclusive_sizes_sum.
    + unfold single. by rewrite exclusive_sets_cover.
    + intros h Hh. apply first_pass_single in Hh. lia.
Qed.

End extractor_more.

Section extractor_more_runs.

(** Scanning the hashes of the demo genomes in reverse order. *)
Lemma first_pass_any_order_witness :
  Exclusive.scan_sketch (∅, ∅)
    (reverse (Exclusive.hash_stream Demo.load ["a"; "b"; "c"]%string 31 "g"))
  = Exclusive.first_pass Demo.load ["a"; "b"; "c"]%string 31 "g".
Proof.
  apply (first_pass_any_order Demo.load). apply reverse_Permutation.
Defined.

(** Genome C = {3,4,5} among A, B, C: only 5 is exclusive, and the sample
    holds it. *)
Lemma exclusive_counts_meaning_witness :
  let out := Exclusive.get_exclusive_hashes Demo.load Demo.manifest
               ["A"; "B"; "C"]%string Demo.sample 31 "g" in
  let exclusive h :=
    Exclusive.candidates_with Demo.load h (md5sum <$> out.2) 31 "g" = 1%nat in
  (1, 1).1
  = Z.of_nat (length (filter exclusive (Exclusive.sketch_hashes Demo.load "g" "c" 31)))
  ∧ (1, 1).2
    = Z.of_nat (length (filter
                          (λ h, exclusive h
                                ∧ h ∈ dict_keys (hashes (minhash Demo.sample)))
                          (Exclusive.sketch_hashes Demo.load "g" "c" 31))).
Proof.
  apply (exclusive_counts_meaning Demo.load Demo.manifest ["A"; "B"; "C"]%string
           Demo.sample 31 "g" 2 (Demo.row "C" "c") (1, 1));
    vm_compute; reflexivity.
Defined.

End extractor_more_runs.


(** ** Hypothesis tester *)

Section tester_more.

Import binom.

Variable betaincinv : pyfloat → pyfloat → pyfloat → pyfloat.
Variable float_pow : pyfloat → pyfloat → pyfloat.

Local Abbreviation get_alt_mut_rate := (Tester.get_alt_mut_rate betaincinv float_pow).
Local Abbreviation single_hyp_test := (Tester.single_hyp_test betaincinv float_pow).

(** Reading a returned result back: the steps that did not raise and the
    fields they fill. *)
Lemma single_hyp_test_inv n m ksize significance ani_thresh min_coverage r :
  single_hyp_test (n, m) ksize significance ani_thresh min_coverage = Ok r →
  ∃ non_mut_p n_c,
    Py.float_pow_int ani_thresh ksize = Ok non_mut_p
    ∧ Py.int_of_float (Py.float_mul (Py.float_of_int n) min_coverage) = Ok n_c
    ∧ let t := ppf (Py.float_sub (Py.float_of_int 1) significance) n_c non_mut_p in
      acceptance_threshold_with_coverage r = t
      ∧ in_sample_est r
        = Py.int_ge_float m t && negb (m =? 0) && Py.float_ne_int t 0
      ∧ p_vals r = cdf (Py.float_of_int m) n non_mut_p
      ∧ num_exclusive_kmers_to_genome r = n
      ∧ num_exclusive_kmers_to_genome_coverage r = n_c
      ∧ num_matches r = m
      ∧ get_alt_mut_rate n_c t ksize significance
        = Ok (alt_confidence_mut_rate_with_coverage r).
Proof.
  unfold Tester.single_hyp_test. cbn [fst snd].
  destruct (Py.float_pow_int ani_thresh ksize) as [p|e]; [|done].
  cbn [mbind result_bind].
  destruct (Py.int_of_float _) as [n_c|e]; [|done].
  cbn [mbind result_bind].
  destruct (Tester.get_alt_mut_rate _ _ _ _ _ _) as [alt|e] eqn:Halt; [|done].
  cbn [mbind result_bind]. intros [= <-].
  exists p, n_c. cbn zeta. repeat split; first [exact Halt | reflexivity].
Qed.

(** A present call has a match. *)
Lemma present_has_match n m ksize significance ani_thresh min_coverage r :
  single_hyp_test (n, m) ksize significance ani_thresh min_coverage = Ok r →
  in_sample_est r = true → m ≠ 0.
Proof.
  intros Hr Hest.
  destruct (single_hyp_test_inv _ _ _ _ _ _ _ Hr) as (p & n_c & _ & _ & _ & Hdec & _).
  cbn zeta in Hdec. rewrite Hdec in Hest.
  apply andb_true_iff in Hest as [[_ Hm]%andb_true_iff _].
  by apply negb_true_iff, Z.eqb_neq in Hm.
Qed.

(** X6: whatever the inputs, a returned result calls the genome present
    only on evidence: the threshold is then a number (not nan), not zero and
    at most [num_matches], and [num_matches] is not zero. *)
Theorem presence_needs_evidence n m ksize significance ani_thresh min_coverage r :
  single_hyp_test (n, m) ksize significance ani_thresh min_coverage = Ok r →
  in_sample_est r = true →
  ∃ t : Q,
    acceptance_threshold_with_coverage r = Finite t
    ∧ (t <= inject_Z m)%Q ∧ ¬ (t == 0)%Q ∧ m ≠ 0.
Proof.
  intros Hr Hest.
  destruct (single_hyp_test_inv _ _ _ _ _ _ _ Hr)
    as (p & n_c & _ & _ & Ht & Hdec & _).
  cbn zeta in Ht, Hdec. rewrite <- Ht in Hdec. rewrite Hdec in Hest.
  apply andb_true_iff in Hest as [[Hge Hm]%andb_true_iff Hne].
  destruct (acceptance_threshold_with_coverage r) as [t|]; [|done].
  exists t. split; [done|]. cbn in Hge, Hne.
  split; [by apply Qle_bool_iff|]. split.
  - intros Heq. apply negb_true_iff in Hne.
    change (inject_Z 0) with 0%Q in Hne.
    by rewrite (Qeq_eq_bool _ _ Heq) in Hne.
  - apply negb_true_iff, Z.eqb_neq in Hm. done.
Qed.

(** X7: more matches never turn a present call into an absent one: for
    the same genome and parameters, if the genome is called present with [m]
    matches it is called present with any [m' >= m]. *)
Theorem presence_monotone_in_matches n m m' ksize significance ani_thresh
    min_coverage r r' :
  single_hyp_test (n, m) ksize significance ani_thresh min_coverage = Ok r →
  single_hyp_test (n, m') ksize significance ani_thresh min_coverage = Ok r' →
  0 ≤ m ≤ m' →
  in_sample_est r = true → in_sample_est r' = true.
Proof.
  intros Hr Hr' Hm Hest.
  destruct (single_hyp_test_inv _ _ _ _ _ _ _ Hr)
    as (p & n_c & Hp & Hnc & _ & Hdec & _).
  destruct (single_hyp_test_inv _ _ _ _ _ _ _ Hr')
    as (p' & n_c' & Hp' & Hnc' & _ & Hdec' & _).
  rewrite Hp in Hp'. injection Hp' as <-.
  rewrite Hnc in Hnc'. injection Hnc' as <-.
  cbn zeta in Hdec, Hdec'. rewrite Hdec in Hest. rewrite Hdec'.
  apply andb_true_iff in Hest as [[Hge Hm0]%andb_true_iff Hne].
  rewrite Hne, andb_true_r. apply andb_true_iff. split.
  - destruct (ppf _ n_c p) as [t|]; [|done]. cbn in *.
    apply Qle_bool_iff. apply Qle_bool_iff in Hge.
    eapply Qle_trans; [exact Hge|]. rewrite <- Zle_Qle. lia.
  - apply negb_true_iff, Z.eqb_neq in Hm0. apply negb_true_iff, Z.eqb_neq. lia.
Qed.

Lemma coverage_count_mono (n : Z) (c1 c2 : Q) :
  0 ≤ n → (0 <= c1)%Q → (c1 <= c2)%Q →
  Z.quot (n * Qnum c1) (Z.pos (Qden c1)) ≤ Z.quot (n * Qnum c2) (Z.pos (Qden c2)).
Proof.
  intros Hn Hc1 Hc12.
  rewrite !coverage_count_floor by (done || lra).
  apply Qfloor_resp_le.
  assert (0 <= inject_Z n)%Q by (unfold Qle; cbn; lia). nra.
Qed.

(** X8: the threshold grows with the assumed coverage: for coverages
    [c1 <= c2] in (0, 1] the adjusted trial count and the acceptance
    threshold at [c1] are at most those at [c2]; so a genome called present
    at [c2] is called present at [c1] unless the threshold at [c1] is zero. *)
Theorem threshold_monotone_in_coverage (n m ksize : Z) (s a c1 c2 : Q) :
  0 ≤ n → 1 ≤ ksize →
  (0 < s)%Q → (s < 1)%Q → (0 < a)%Q → (a < 1)%Q →
  (0 < c1)%Q → (c1 <= c2)%Q → (c2 <= 1)%Q →
  ∃ r1 r2 (t1 t2 : Z),
    single_hyp_test (n, m) ksize (Finite s) (Finite a) (Finite c1) = Ok r1
    ∧ single_hyp_test (n, m) ksize (Finite s) (Finite a) (Finite c2) = Ok r2
    ∧ num_exclusive_kmers_to_genome_coverage r1
      ≤ num_exclusive_kmers_to_genome_coverage r2
    ∧ acceptance_threshold_with_coverage r1 = Finite (inject_Z t1)
    ∧ acceptance_threshold_with_coverage r2 = Finite (inject_Z t2)
    ∧ 0 ≤ t1 ≤ t2
    ∧ (in_sample_est r2 = true → t1 ≠ 0 → in_sample_est r1 = true).
Proof.
  intros Hn Hk Hs0 Hs1 Ha0 Ha1 Hc0 Hc12 Hc1.
  destruct (single_hyp_test_on_domain betaincinv float_pow n m ksize s a c1)
    as (r1 & t1 & Hr1 & Ht1 & Hest1 & _ & _ & Hnc1 & _); try (done || lra).
  destruct (single_hyp_test_on_domain betaincinv float_pow n m ksize s a c2)
    as (r2 & t2 & Hr2 & Ht2 & Hest2 & _ & _ & Hnc2 & _); try (done || lra).
  pose proof (coverage_count_mono n c1 c2 Hn ltac:(lra) Hc12) as Hmono.
  pose proof (coverage_count_bounds n c1 Hn ltac:(lra) ltac:(lra)) as [Hlo _].
  assert (Hle : (t1 ≤ t2)%nat).
  { destruct (single_hyp_test_ok betaincinv float_pow n m ksize (Finite s) (Finite a) c1 Hk)
      as (r1' & Hr1' & _ & _ & _ & _ & _ & Ht1' & _).
    destruct (single_hyp_test_ok betaincinv float_pow n m ksize (Finite s) (Finite a) c2 Hk)
      as (r2' & Hr2' & _ & _ & _ & _ & _ & Ht2' & _).
    rewrite Hr1 in Hr1'. injection Hr1' as <-.
    rewrite Hr2 in Hr2'. injection Hr2' as <-.
    cbn zeta in Ht1', Ht2'.
    rewrite acceptance_threshold_quantile in Ht1' by (lia || lra).
    rewrite acceptance_threshold_quantile in Ht2' by (lia || lra).
    rewrite Ht1 in Ht1'. rewrite Ht2 in Ht2'.
    injection Ht1' as Ht1'. injection Ht2' as Ht2'.
    apply Nat2Z.inj in Ht1', Ht2'. rewrite Ht1', Ht2'.
    apply acceptance_threshold_mono; (lia || lra). }
  exists r1, r2, (Z.of_nat t1), (Z.of_nat t2).
  split; [exact Hr1|]. split; [exact Hr2|].
  split; [by rewrite Hnc1, Hnc2|]. split; [exact Ht1|]. split; [exact Ht2|].
  split; [lia|]. intros Hp2 Hne. apply Hest1. apply Hest2 in Hp2. lia.
Qed.

(** X9: the achieved confidence [1 - CDF(t; n_c, p)] the tester reports is
    a number between 0 and the significance [s]. *)
Theorem actual_confidence_bounds (n m ksize : Z) (s a c : Q) :
  0 ≤ n → 1 ≤ ksize →
  (0 < s)%Q → (s < 1)%Q → (0 < a)%Q → (a < 1)%Q → (0 < c)%Q → (c <= 1)%Q →
  ∃ r (x : Q),
    single_hyp_test (n, m) ksize (Finite s) (Finite a) (Finite c) = Ok r
    ∧ actual_confidence_with_coverage r = Finite x
    ∧ (0 <= x)%Q ∧ (x <= s)%Q.
Proof.
  intros Hn Hk Hs0 Hs1 Ha0 Ha1 Hc0 Hc1.
  destruct (single_hyp_test_ok betaincinv float_pow n m ksize (Finite s) (Finite a) c Hk)
    as (r & Hr & _ & _ & _ & _ & _ & _ & Hconf & _).
  cbn zeta in Hconf.
  pose proof (coverage_count_bounds n c Hn ltac:(lra) Hc1) as [Hnc0 _].
  set (n_c := Z.quot (n * Qnum c) (Z.pos (Qden c))) in *.
  rewrite acceptance_threshold_quantile in Hconf by (done || lra).
  destruct (Qpower_unit a ksize ltac:(split; lra) ltac:(lia)) as [Hp0 Hp1].
  destruct (ppf_nat_spec (1 - s) (a ^ ksize) ltac:(lra) (Z.to_nat n_c))
    as (Htn & Hq & _).
  set (t := ppf_nat (1 - s) (Z.to_nat n_c) (a ^ ksize)) in *.
  unfold cdf, argcheck in Hconf.
  replace (0 <=? n_c) with true in Hconf by lia.
  rewrite !Qle_bool_true in Hconf by done. cbn [andb negb] in Hconf.
  exists r. destruct (Qle_bool (inject_Z n_c) (inject_Z (Z.of_nat t))) eqn:E.
  - exists (inject_Z 1 - 1)%Q. split; [exact Hr|]. split; [exact Hconf|].
    split; [|apply Qlt_le_weak in Hs0]; (unfold Qle in *; cbn in *; lia).
  - rewrite Qle_bool_true in Hconf by (unfold Qle; cbn; lia).
    cbn [negb] in Hconf. rewrite Qfloor_Z, Nat2Z.id in Hconf.
    exists (inject_Z 1 - cdf_Q t (Z.to_nat n_c) (a ^ ksize))%Q.
    split; [exact Hr|]. split; [exact Hconf|].
    pose proof (cdf_Q_le_1 (a ^ ksize) Hp0 Hp1 t (Z.to_nat n_c)).
    change (inject_Z 1) with 1%Q. split; lra.
Qed.

Lemma cdf_count (n m : Z) (p : Q) :
  0 ≤ n → 0 ≤ m → (0 <= p)%Q → (p <= 1)%Q →
  cdf (Py.float_of_int m) n (Finite p)
  = Finite (if decide (n ≤ m) then 1 else cdf_Q (Z.to_nat m) (Z.to_nat n) p).
Proof.
  intros Hn Hm Hp0 Hp1. unfold cdf, Py.float_of_int, argcheck.
  replace (0 <=? n) with true by lia. rewrite !Qle_bool_true by done.
  cbn [andb negb]. destruct (decide (n ≤ m)) as [Hle|Hgt].
  - by rewrite Qle_bool_true by (by rewrite <- Zle_Qle).
  - assert (Qle_bool (inject_Z n) (inject_Z m) = false) as ->.
    { destruct (Qle_bool (inject_Z n) (inject_Z m)) eqn:E; [|done].
      apply Qle_bool_iff in E. rewrite <- Zle_Qle in E. lia. }
    rewrite Qle_bool_true by (unfold Qle; cbn; lia).
    cbn [negb]. by rewrite Qfloor_Z.
Qed.

(** X10: the p-value is a probability, and it does not decrease when the
    number of matches grows. *)
Theorem p_value_monotone (n m m' ksize : Z) (s a c : Q) :
  0 ≤ n → 0 ≤ m ≤ m' → 1 ≤ ksize →
  (0 < s)%Q → (s < 1)%Q → (0 < a)%Q → (a < 1)%Q → (0 < c)%Q → (c <= 1)%Q →
  ∃ r r' (x x' : Q),
    single_hyp_test (n, m) ksize (Finite s) (Finite a) (Finite c) = Ok r
    ∧ single_hyp_test (n, m') ksize (Finite s) (Finite a) (Finite c) = Ok r'
    ∧ p_vals r = Finite x ∧ p_vals r' = Finite x'
    ∧ (0 <= x)%Q ∧ (x <= x')%Q ∧ (x' <= 1)%Q.
Proof.
  intros Hn Hm Hk Hs0 Hs1 Ha0 Ha1 Hc0 Hc1.
  destruct (single_hyp_test_on_domain betaincinv float_pow n m ksize s a c)
    as (r & t & Hr & _ & _ & Hp & _); try done.
  destruct (single_hyp_test_on_domain betaincinv float_pow n m' ksize s a c)
    as (r' & t' & Hr' & _ & _ & Hp' & _); try done.
  destruct (Qpower_unit a ksize ltac:(split; lra) ltac:(lia)) as [Hp0 Hp1].
  rewrite cdf_count in Hp, Hp' by (done || lia).
  eexists r, r', _, _. split; [exact Hr|]. split; [exact Hr'|].
  split; [exact Hp|]. split; [exact Hp'|].
  pose proof (cdf_Q_nonneg (a ^ ksize) Hp0 Hp1 (Z.to_nat m) (Z.to_nat n)).
  pose proof (cdf_Q_le_1 (a ^ ksize) Hp0 Hp1 (Z.to_nat m) (Z.to_nat n)).
  pose proof (cdf_Q_le_1 (a ^ ksize) Hp0 Hp1 (Z.to_nat m') (Z.to_nat n)).
  pose proof (cdf_Q_mono (a ^ ksize) Hp0 Hp1 (Z.to_nat m) (Z.to_nat m') (Z.to_nat n)
                ltac:(lia)).
  destruct (decide (n ≤ m)), (decide (n ≤ m')); try lia; repeat split; lra.
Qed.

Lemma single_hyp_test_raises_at_zero (n m : Z) (significance ani_thresh : pyfloat) (c : Q) :
  single_hyp_test (n, m) 0 significance ani_thresh (Finite c)
  = Raise ZeroDivisionError.
Proof.
  unfold Tester.single_hyp_test. cbn [fst snd].
  assert (∃ p, Py.float_pow_int ani_thresh 0 = Ok p) as [p ->].
  { destruct ani_thresh as [q|]; cbn; [|by eexists].
    rewrite andb_false_r. by eexists. }
  cbn [mbind result_bind]. rewrite int_of_float_mul. cbn [mbind result_bind].
  reflexivity.
Qed.

Lemma single_hyp_test_nan_coverage (n m ksize : Z) (significance ani_thresh : pyfloat) :
  0 ≤ ksize →
  single_hyp_test (n, m) ksize significance ani_thresh NaN = Raise ValueError.
Proof.
  intros Hk. unfold Tester.single_hyp_test. cbn [fst snd].
  assert (∃ p, Py.float_pow_int ani_thresh ksize = Ok p) as [p ->].
  { destruct ani_thresh as [q|]; cbn; [|by eexists].
    replace (ksize <? 0) with false by lia. rewrite andb_false_r. by eexists. }
  reflexivity.
Qed.

(** X11: error behaviour of the tester on otherwise valid arguments
    (a count that is not negative, significance and ANI threshold in (0,1),
    coverage in (0,1]): a k-mer size of zero raises [ZeroDivisionError] (in
    [1/ksize]); with a coverage that is nan instead and a k-mer size that is
    not negative, the call raises [ValueError] (in [int(...)]), also at
    k-mer size zero. *)
Theorem single_hyp_test_errors (n m ksize : Z) (s a c : Q) :
  0 ≤ n →
  (0 < s)%Q → (s < 1)%Q → (0 < a)%Q → (a < 1)%Q → (0 < c)%Q → (c <= 1)%Q →
  single_hyp_test (n, m) 0 (Finite s) (Finite a) (Finite c)
  = Raise ZeroDivisionError
  ∧ (0 ≤ ksize →
     single_hyp_test (n, m) ksize (Finite s) (Finite a) NaN = Raise ValueError).
Proof.
  intros _ _ _ _ _ _ _.
  split; [apply single_hyp_test_raises_at_zero|apply single_hyp_test_nan_coverage].
Qed.

(** X12: when [num_exclusive * coverage] is at most the largest double
    below 1, [1 - 2^-53], the float product is below 1 and there is no trial
    left: the adjusted count and the threshold are 0 and the genome is not
    called present, however many matches there are. *)
Theorem no_trials_no_presence (n m ksize : Z) (s a c : Q) :
  0 ≤ n → n < 2 ^ 53 → 1 ≤ ksize →
  (0 < s)%Q → (s < 1)%Q → (0 < a)%Q → (a < 1)%Q → (0 <= c)%Q → (c <= 1)%Q →
  (inject_Z n * c <= Py.below_one)%Q →
  ∃ r,
    single_hyp_test (n, m) ksize (Finite s) (Finite a) (Finite c) = Ok r
    ∧ num_exclusive_kmers_to_genome_coverage r = 0
    ∧ acceptance_threshold_with_coverage r = Finite (inject_Z 0)
    ∧ in_sample_est r = false.
Proof.
  intros Hn _ Hk Hs0 Hs1 Ha0 Ha1 Hc0 Hc1 Hle.
  assert (Hlt : (inject_Z n * c < 1)%Q).
  { eapply Qle_lt_trans; [exact Hle|]. reflexivity. }
  destruct (single_hyp_test_ok betaincinv float_pow n m ksize (Finite s) (Finite a) c Hk)
    as (r & Hr & Hest & _ & _ & Hnc & _ & Ht & _).
  cbn zeta in Hest, Hnc, Ht.
  assert (Hzero : Z.quot (n * Qnum c) (Z.pos (Qden c)) = 0).
  { rewrite coverage_count_floor by done.
    assert (H0 : (0 <= inject_Z n * c)%Q).
    { assert (0 <= inject_Z n)%Q by (unfold Qle; cbn; lia). nra. }
    pose proof (Qfloor_resp_le _ _ H0) as Hlo. change (Qfloor 0) with 0 in Hlo.
    pose proof (Qlt_floor (inject_Z n * c)) as Hhi.
    assert (Hup : (inject_Z (Qfloor (inject_Z n * c)) < 1)%Q).
    { eapply Qle_lt_trans; [apply Qfloor_le|done]. }
    change 1%Q with (inject_Z 1) in Hup. rewrite <- Zlt_Qlt in Hup. lia. }
  rewrite Hzero in *.
  rewrite acceptance_threshold_quantile in Hest, Ht by (lia || lra).
  exists r. split; [exact Hr|]. split; [exact Hnc|]. split; [exact Ht|].
  rewrite Hest. cbn. by rewrite andb_false_r.
Qed.

End tester_more.

Section tester_more_runs.

Local Abbreviation single_hyp_test :=
  (Tester.single_hyp_test Numeric.betaincinv Numeric.float_pow).

Local Ltac numbers := first [lia | unfold Qlt, Qle; cbn; lia].

(** 20 exclusive hashes, 18 matched, threshold 12: present. *)
Lemma presence_needs_evidence_witness :
  ∃ r,
    single_hyp_test (20, 18) 2 (Finite (99 # 100)) (Finite (9 # 10)) (Finite 1) = Ok r
    ∧ ∃ t : Q,
        acceptance_threshold_with_coverage r = Finite t
        ∧ (t <= inject_Z 18)%Q ∧ ¬ (t == 0)%Q ∧ 18 ≠ 0.
Proof.
  eexists. split; [vm_compute; reflexivity|].
  apply (presence_needs_evidence Numeric.betaincinv Numeric.float_pow 20 18 2
           (Finite (99 # 100)) (Finite (9 # 10)) (Finite 1));
    vm_compute; reflexivity.
Defined.

(** Present with 12 matches, so present with 18. *)
Lemma presence_monotone_in_matches_witness :
  ∃ r r',
    single_hyp_test (20, 12) 2 (Finite (99 # 100)) (Finite (9 # 10)) (Finite 1) = Ok r
    ∧ single_hyp_test (20, 18) 2 (Finite (99 # 100)) (Finite (9 # 10)) (Finite 1) = Ok r'
    ∧ in_sample_est r = true
    ∧ in_sample_est r' = true.
Proof.
  eexists _, _. split; [vm_compute; reflexivity|].
  split; [vm_compute; reflexivity|]. split; [reflexivity|].
  eapply (presence_monotone_in_matches Numeric.betaincinv Numeric.float_pow 20 12 18 2
            (Finite (99 # 100)) (Finite (9 # 10)) (Finite 1));
    [vm_compute; reflexivity|vm_compute; reflexivity|lia|reflexivity].
Defined.

Lemma threshold_monotone_in_coverage_witness :
  ∃ r1 r2 (t1 t2 : Z),
    single_hyp_test (20, 18) 2 (Finite (99 # 100)) (Finite (9 # 10)) (Finite (1 # 2))
    = Ok r1
    ∧ single_hyp_test (20, 18) 2 (Finite (99 # 100)) (Finite (9 # 10)) (Finite 1) = Ok r2
    ∧ num_exclusive_kmers_to_genome_coverage r1
      ≤ num_exclusive_kmers_to_genome_coverage r2
    ∧ acceptance_threshold_with_coverage r1 = Finite (inject_Z t1)
    ∧ acceptance_threshold_with_coverage r2 = Finite (inject_Z t2)
    ∧ 0 ≤ t1 ≤ t2
    ∧ (in_sample_est r2 = true → t1 ≠ 0 → in_sample_est r1 = true).
Proof.
  apply (threshold_monotone_in_coverage Numeric.betaincinv Numeric.float_pow
           20 18 2 (99 # 100) (9 # 10) (1 # 2) 1); numbers.
Defined.

Lemma actual_confidence_bounds_witness :
  ∃ r (x : Q),
    single_hyp_test (20, 18) 2 (Finite (99 # 100)) (Finite (9 # 10)) (Finite (1 # 2))
    = Ok r
    ∧ actual_confidence_with_coverage r = Finite x
    ∧ (0 <= x)%Q ∧ (x <= 99 # 100)%Q.
Proof.
  apply (actual_confidence_bounds Numeric.betaincinv Numeric.float_pow
           20 18 2 (99 # 100) (9 # 10) (1 # 2)); numbers.
Defined.

Lemma p_value_monotone_witness :
  ∃ r r' (x x' : Q),
    single_hyp_test (20, 12) 2 (Finite (99 # 100)) (Finite (9 # 10)) (Finite (1 # 2))
    = Ok r
    ∧ single_hyp_test (20, 18) 2 (Finite (99 # 100)) (Finite (9 # 10)) (Finite (1 # 2))
      = Ok r'
    ∧ p_vals r = Finite x ∧ p_vals r' = Finite x'
    ∧ (0 <= x)%Q ∧ (x <= x')%Q ∧ (x' <= 1)%Q.
Proof.
  apply (p_value_monotone Numeric.betaincinv Numeric.float_pow
           20 12 18 2 (99 # 100) (9 # 10) (1 # 2)); numbers.
Defined.

Lemma single_hyp_test_errors_witness :
  single_hyp_test (20, 18) 0 (Finite (99 # 100)) (Finite (9 # 10)) (Finite (1 # 2))
  = Raise ZeroDivisionError
  ∧ single_hyp_test (20, 18) 2 (Finite (99 # 100)) (Finite (9 # 10)) NaN
    = Raise ValueError.
Proof.
  destruct (single_hyp_test_errors Numeric.betaincinv Numeric.float_pow
              20 18 2 (99 # 100) (9 # 10) (1 # 2)) as [Hzero Hnan]; try numbers.
  split; [exact Hzero|]. apply Hnan. lia.
Defined.

(** One exclusive hash at coverage 1/2: no trial. *)
Lemma no_trials_no_presence_witness :
  ∃ r,
    single_hyp_test (1, 1) 2 (Finite (99 # 100)) (Finite (9 # 10)) (Finite (1 # 2)) = Ok r
    ∧ num_exclusive_kmers_to_genome_coverage r = 0
    ∧ acceptance_threshold_with_coverage r = Finite (inject_Z 0)
    ∧ in_sample_est r = false.
Proof.
  apply (no_trials_no_presence Numeric.betaincinv Numeric.float_pow
           1 1 2 (99 # 100) (9 # 10) (1 # 2)); numbers.
Defined.

End tester_more_runs.

(** ** Overlap prefilter *)

Section drop_duplicates_order.

Context {A : Type} `{EqDecision A}.

Lemma drop_duplicates_from_sublist (l : list A) : ∀ seen,
  drop_duplicates_from seen l `sublist_of` l.
Proof.
  induction l as [|x l IH]; intros seen; cbn [drop_duplicates_from]; [done|].
  destruct (decide (x ∈ seen)).
  - apply sublist_cons, IH.
  - apply sublist_skip, IH.
Qed.

Lemma drop_duplicates_from_NoDup (l : list A) : ∀ seen,
  NoDup l → (∀ x, x ∈ l → x ∉ seen) → drop_duplicates_from seen l = l.
Proof.
  induction l as [|x l IH]; intros seen Hnd Hseen; cbn [drop_duplicates_from]; [done|].
  apply NoDup_cons in Hnd as [Hx Hnd].
  rewrite decide_False by (apply Hseen; left).
  f_equal. apply IH; [done|]. intros y Hy. rewrite elem_of_cons.
  intros [->|Hin]; [done|]. apply (Hseen y); [by right|done].
Qed.

End drop_duplicates_order.

Section prefilter_more.

Context {Cell : Type} `{EqDecision Cell}.
Variable zip_signature_files : string → list string.
Variable sourmash_multisearch :
  list string → list string → Z → Z → Z → Z * list (multisearch_row Cell).

Local Abbreviation get_organisms_with_nonzero_overlap :=
  (Prefilter.get_organisms_with_nonzero_overlap zip_signature_files sourmash_multisearch).

Local Abbreviation multisearch_table manifest sample_file scale ksize num_threads
    path_to_genome_temp_dir path_to_sample_temp_dir :=
  (sourmash_multisearch
     ((λ sig_file, path_join (path_join path_to_sample_temp_dir "signatures") sig_file)
      <$> zip_signature_files sample_file)
     ((λ r, signature_path path_to_genome_temp_dir (md5sum r)) <$> manifest)
     scale ksize num_threads).

(** X13: the names the prefilter returns come in the order of the rows
    of the search result, each row at its first occurrence: the list is a
    sublist of the [match_name] column, starts with the match name of the
    first row, and is the whole column when no row of the result is
    repeated. *)
Theorem get_organisms_with_nonzero_overlap_order manifest sample_file scale ksize
    num_threads gdir sdir names :
  get_organisms_with_nonzero_overlap manifest sample_file scale ksize num_threads
    gdir sdir = Ok names →
  let table :=
    (multisearch_table manifest sample_file scale ksize num_threads gdir sdir).2 in
  names `sublist_of` (match_name <$> table)
  ∧ head names = match_name <$> head table
  ∧ (NoDup table → names = match_name <$> table).
Proof.
  rewrite get_organisms_with_nonzero_overlap_eq. cbn zeta.
  destruct (decide _); [done|]. intros [= <-].
  split; [|split].
  - apply fmap_sublist, drop_duplicates_from_sublist.
  - destruct (sourmash_multisearch _ _ _ _ _).2 as [|hit table]; [done|].
    unfold drop_duplicates. cbn [drop_duplicates_from].
    by rewrite decide_False by apply not_elem_of_nil.
  - intros Hnd. unfold drop_duplicates.
    rewrite drop_duplicates_from_NoDup; [done|done|].
    intros x _. apply not_elem_of_nil.
Qed.

End prefilter_more.


(** ** Overlap prefilter and coverage sweep *)

Section sweep_more.

Import Sweep.

Context {Cell : Type} `{EqDecision Cell}.
Variable load_signature_with_ksize : string → Z → SourmashSignature.
Variable betaincinv : pyfloat → pyfloat → pyfloat → pyfloat.
Variable float_pow : pyfloat → pyfloat → pyfloat.
Variable zip_signature_files : string → list string.
Variable sourmash_multisearch :
  list string → list string → Z → Z → Z → Z * list (multisearch_row Cell).

Local Abbreviation single_hyp_test := (Tester.single_hyp_test betaincinv float_pow).
Local Abbreviation sweep_body := (Sweep.sweep_body betaincinv float_pow).
Local Abbreviation get_organisms_with_nonzero_overlap :=
  (Prefilter.get_organisms_with_nonzero_overlap zip_signature_files sourmash_multisearch).
Local Abbreviation get_exclusive_hashes :=
  (Exclusive.get_exclusive_hashes load_signature_with_ksize).
Local Abbreviation hypothesis_recovery :=
  (Sweep.hypothesis_recovery load_signature_with_ksize betaincinv float_pow
     zip_signature_files sourmash_multisearch).
Local Abbreviation candidate_set :=
  (Sweep.candidate_set zip_signature_files sourmash_multisearch).
Local Abbreviation exclusive_info :=
  (Sweep.exclusive_info load_signature_with_ksize zip_signature_files
     sourmash_multisearch).
Local Abbreviation search_outcome :=
  (Sweep.search_outcome zip_signature_files sourmash_multisearch).

Local Abbreviation coverage_table := (Sweep.coverage_table betaincinv float_pow).

Lemma starmap_ext {A B : Type} (f g : A → result B) (l : list A) :
  (∀ x, f x = g x) → starmap f l = starmap g l.
Proof.
  intros Hfg. induction l as [|x l IH]; [done|].
  cbn [starmap]. by rewrite Hfg, IH.
Qed.

Lemma starmap_Forall2 {A B : Type} (f : A → result B) (l : list A) : ∀ ys,
  starmap f l = Ok ys ↔ Forall2 (λ x y, f x = Ok y) l ys.
Proof.
  induction l as [|x l IH]; intros ys; cbn [starmap].
  - split; [intros [= <-]; constructor|by intros ->%Forall2_nil_inv_l].
  - split.
    + destruct (f x) as [y|e] eqn:Hy; [|done]. cbn [mbind result_bind].
      destruct (starmap f l) as [ys'|e] eqn:Hys; [|done]. cbn [mbind result_bind].
      intros [= <-]. constructor; [done|]. by apply IH.
    + intros (y & ys' & Hy & Hys & ->)%Forall2_cons_inv_l.
      rewrite Hy. cbn [mbind result_bind].
      apply IH in Hys. rewrite Hys. done.
Qed.

Lemma sweep_body_eq infos ksize significance ani_thresh num_threads man acc c :
  sweep_body infos ksize significance ani_thresh num_threads (man, acc) c
  = (table ← coverage_table infos man ksize significance ani_thresh num_threads c;
     Ok (set_min_coverage c <$> man, acc ++ [table])).
Proof.
  unfold Sweep.sweep_body, Sweep.coverage_table.
  destruct (decide (num_threads < 1)); [done|].
  by destruct (starmap _ infos).
Qed.

Lemma coverage_table_overwrite infos ksize significance ani_thresh num_threads c' man c :
  coverage_table infos (set_min_coverage c' <$> man) ksize significance ani_thresh
    num_threads c
  = coverage_table infos man ksize significance ani_thresh num_threads c.
Proof. unfold Sweep.coverage_table. by rewrite set_min_coverage_overwrite. Qed.

(** The loop of the sweep is a map over the coverage values: the frame it
    overwrites in place carries nothing from one round to the next but the
    tag, which the next round overwrites. *)
Lemma sweep_is_a_map infos ksize significance ani_thresh num_threads covs :
  ∀ man acc,
  match starmap (coverage_table infos man ksize significance ani_thresh num_threads)
          covs with
  | Ok tables =>
      ∃ man',
        for_each (sweep_body infos ksize significance ani_thresh num_threads)
                 (man, acc) covs = Ok (man', acc ++ tables)
        ∧ ∀ c, set_min_coverage c <$> man' = set_min_coverage c <$> man
  | Raise e =>
      for_each (sweep_body infos ksize significance ani_thresh num_threads)
               (man, acc) covs = Raise e
  end.
Proof.
  induction covs as [|c covs IH]; intros man acc.
  - cbn. exists man. by rewrite app_nil_r.
  - cbn [starmap for_each]. rewrite sweep_body_eq.
    destruct (coverage_table infos man _ _ _ _ c) as [table|e]; [|done].
    cbn [mbind result_bind].
    specialize (IH (set_min_coverage c <$> man) (acc ++ [table])).
    rewrite (starmap_ext _
               (coverage_table infos man ksize significance ani_thresh num_threads))
      in IH by (intros c'; apply coverage_table_overwrite).
    destruct (starmap _ covs) as [tables|e]; cbn [mbind result_bind].
    + destruct IH as (man' & Hloop & Hman'). exists man'. split.
      * rewrite Hloop. by rewrite <- (assoc_L (++)).
      * intros c'. by rewrite Hman', set_min_coverage_overwrite.
    + done.
Qed.

(** [hypothesis_recovery] as the composition of its three stages. *)
Lemma hypothesis_recovery_eq manifest sample_file sample_sig gdir covs scale ksize
    significance ani_thresh num_threads :
  hypothesis_recovery manifest (sample_file, sample_sig) gdir covs scale ksize
    significance ani_thresh num_threads
  = (names ← get_organisms_with_nonzero_overlap manifest sample_file scale ksize
               num_threads gdir (sample_temp_dir sample_file);
     starmap
       (coverage_table (get_exclusive_hashes manifest names sample_sig ksize gdir).1
          (get_exclusive_hashes manifest names sample_sig ksize gdir).2
          ksize significance ani_thresh num_threads)
       covs).
Proof.
  unfold Sweep.hypothesis_recovery.
  destruct (get_organisms_with_nonzero_overlap _ _ _ _ _ _ _) as [names|e]; [|done].
  cbn [mbind result_bind].
  destruct (get_exclusive_hashes manifest names sample_sig ksize gdir)
    as [infos sub] eqn:E. cbn [fst snd].
  pose proof (sweep_is_a_map infos ksize significance ani_thresh num_threads covs sub [])
    as Hmap.
  destruct (starmap _ covs) as [tables|e].
  - destruct Hmap as (man' & -> & _). done.
  - by rewrite Hmap.
Qed.


(** The run in two stages: the external search, then one table per
    coverage value from the candidate rows and their pairs of counts. *)
Lemma hypothesis_recovery_stages manifest sample_file sample_sig gdir covs scale
    ksize significance ani_thresh num_threads :
  hypothesis_recovery manifest (sample_file, sample_sig) gdir covs scale ksize
    significance ani_thresh num_threads
  = if decide ((search_outcome manifest sample_file gdir scale ksize num_threads).1 ≠ 0)
    then Raise ValueError
    else starmap
           (coverage_table
              (exclusive_info manifest sample_file sample_sig gdir scale ksize num_threads)
              (candidate_set manifest sample_file gdir scale ksize num_threads)
              ksize significance ani_thresh num_threads)
           covs.
Proof.
  rewrite hypothesis_recovery_eq.
  unfold Sweep.exclusive_info, Sweep.candidate_set, Sweep.search_outcome.
  rewrite get_organisms_with_nonzero_overlap_eq. cbn zeta.
  destruct (decide _); [done|]. cbn [mbind result_bind].
  by rewrite get_exclusive_hashes_info.
Qed.

(** The pair of counts of a candidate row, among the candidates [cands]. *)
Local Abbreviation pair_of cands sample_sig ksize gdir :=
  (λ r : manifest_row,
     let ex := Exclusive.find_exclusive_hashes load_signature_with_ksize (md5sum r)
                 gdir ksize
                 (Exclusive.first_pass load_signature_with_ksize (md5sum <$> cands)
                    ksize gdir).1 in
     (Z.of_nat (size ex),
      Z.of_nat (size (ex ∩ list_to_set (C := gset Z)
                             (dict_keys (hashes (minhash sample_sig))))))).

Lemma exclusive_info_eq manifest sample_file sample_sig gdir scale ksize num_threads :
  let cands := candidate_set manifest sample_file gdir scale ksize num_threads in
  exclusive_info manifest sample_file sample_sig gdir scale ksize num_threads
  = pair_of cands sample_sig ksize gdir <$> cands.
Proof.
  cbn zeta. unfold Sweep.exclusive_info, Sweep.candidate_set.
  destruct (get_organisms_with_nonzero_overlap _ _ _ _ _ _ _) as [names|e]; [|done].
  by rewrite get_exclusive_hashes_info.
Qed.

Lemma coverage_table_Ok infos man ksize significance ani_thresh num_threads c table :
  coverage_table infos man ksize significance ani_thresh num_threads c = Ok table
  ↔ 1 ≤ num_threads
    ∧ ∃ results,
        Forall2 (λ info r, single_hyp_test info ksize significance ani_thresh c = Ok r)
                infos results
        ∧ table = concat_columns (set_min_coverage c <$> man) results.
Proof.
  unfold Sweep.coverage_table. destruct (decide (num_threads < 1)) as [Hlt|Hge].
  - split; [done|]. intros [? _]. lia.
  - destruct (starmap _ infos) as [results|e] eqn:Hres; cbn [mbind result_bind].
    + apply starmap_Forall2 in Hres. split.
      * intros [= <-]. split; [lia|]. by exists results.
      * intros (_ & results' & Hres' & ->). do 2 f_equal.
        apply starmap_Forall2 in Hres, Hres'. congruence.
    + split; [done|]. intros (_ & results & Hres' & _).
      apply starmap_Forall2 in Hres'. congruence.
Qed.

(** Row [j] of table [i] of a run that returns. *)
Lemma hypothesis_recovery_row manifest sample_file sample_sig gdir covs scale
    ksize significance ani_thresh num_threads tables i table j row :
  hypothesis_recovery manifest (sample_file, sample_sig) gdir covs scale ksize
    significance ani_thresh num_threads = Ok tables →
  tables !! i = Some table → table !! j = Some row →
  let cands := candidate_set manifest sample_file gdir scale ksize num_threads in
  ∃ c r,
    covs !! i = Some c ∧ cands !! j = Some r
    ∧ manifest_columns row = set_min_coverage c r
    ∧ single_hyp_test (pair_of cands sample_sig ksize gdir r) ksize significance
        ani_thresh c = Ok (test_columns row).
Proof.
  rewrite hypothesis_recovery_stages. destruct (decide _); [done|].
  intros Hrun%starmap_Forall2 Hi Hj. cbn zeta.
  destruct (Forall2_lookup_r _ _ _ _ _ Hrun Hi) as (c & Hc & Htable).
  apply coverage_table_Ok in Htable as (_ & results & Hres & ->).
  apply lookup_zip_with_Some in Hj as (x & res & -> & Hx & Hres_j).
  rewrite list_lookup_fmap in Hx.
  destruct (candidate_set _ _ _ _ _ _ !! j) as [r|] eqn:Hr; [|done].
  injection Hx as <-.
  destruct (Forall2_lookup_r _ _ _ _ _ Hres Hres_j) as (info & Hinfo & Htest).
  rewrite exclusive_info_eq in Hinfo. cbn zeta in Hinfo.
  rewrite list_lookup_fmap, Hr in Hinfo. injection Hinfo as <-.
  by exists c, r.
Qed.

(** X14: every table a run returns holds one row per candidate genome,
    in the candidates' order; row [j] of table [i] is candidate [j] with its
    [min_coverage] set to coverage value [i], next to the result of
    [single_hyp_test] on the pair of counts of candidate [j] at that
    coverage value. *)
Theorem hypothesis_recovery_rows manifest sample_file sample_sig gdir covs scale
    ksize significance ani_thresh num_threads tables :
  hypothesis_recovery manifest (sample_file, sample_sig) gdir covs scale ksize
    significance ani_thresh num_threads = Ok tables →
  let cands := candidate_set manifest sample_file gdir scale ksize num_threads in
  let infos :=
    exclusive_info manifest sample_file sample_sig gdir scale ksize num_threads in
  length tables = length covs
  ∧ length infos = length cands
  ∧ ∀ i table, tables !! i = Some table →
      length table = length cands
      ∧ ∀ j row, table !! j = Some row →
          ∃ c r info,
            covs !! i = Some c ∧ cands !! j = Some r ∧ infos !! j = Some info
            ∧ manifest_columns row = set_min_coverage c r
            ∧ single_hyp_test info ksize significance ani_thresh c
              = Ok (test_columns row).
Proof.
  intros Hrun. cbn zeta. pose proof Hrun as Hstages.
  rewrite hypothesis_recovery_stages in Hstages.
  destruct (decide _); [done|]. apply starmap_Forall2 in Hstages.
  assert (Hlen : length (exclusive_info manifest sample_file sample_sig gdir scale
                           ksize num_threads)
                 = length (candidate_set manifest sample_file gdir scale ksize
                             num_threads)).
  { rewrite exclusive_info_eq. cbn zeta. by rewrite length_fmap. }
  split; [symmetry; by eapply Forall2_length|]. split; [exact Hlen|].
  intros i table Hi. split.
  - destruct (Forall2_lookup_r _ _ _ _ _ Hstages Hi) as (c & Hc & Htable).
    apply coverage_table_Ok in Htable as (_ & results & Hres & ->).
    apply Forall2_length in Hres.
    rewrite length_concat_columns; rewrite length_fmap; [done|lia].
  - intros j row Hj.
    destruct (hypothesis_recovery_row _ _ _ _ _ _ _ _ _ _ _ _ _ _ _ Hrun Hi Hj)
      as (c & r & Hc & Hr & Hcols & Htest).
    exists c, r, (pair_of (candidate_set manifest sample_file gdir scale ksize
                             num_threads) sample_sig ksize gdir r).
    split; [done|]. split; [done|]. split; [|done].
    rewrite exclusive_info_eq. cbn zeta. by rewrite list_lookup_fmap, Hr.
Qed.

(** X15: the rounds of the sweep do not influence each other, although
    each overwrites the [min_coverage] column of the shared frame: a run over
    a list of coverage values returns exactly the tables the runs over the
    single values return, in order. *)
Theorem hypothesis_recovery_rounds_independent manifest sample_file sample_sig
    gdir covs scale ksize significance ani_thresh num_threads tables :
  hypothesis_recovery manifest (sample_file, sample_sig) gdir covs scale ksize
    significance ani_thresh num_threads = Ok tables →
  Forall2 (λ c table,
             hypothesis_recovery manifest (sample_file, sample_sig) gdir [c] scale
               ksize significance ani_thresh num_threads = Ok [table])
          covs tables.
Proof.
  rewrite hypothesis_recovery_stages. destruct (decide _) as [|Hexit]; [done|].
  intros Hrun%starmap_Forall2. eapply Forall2_impl; [exact Hrun|].
  intros c table Htable. rewrite hypothesis_recovery_stages.
  destruct (decide _); [done|]. cbn [starmap]. by rewrite Htable.
Qed.

(** X16: a genome is reported present only if the sample holds at least
    one hash that, among the candidates, occurs in the sketch of this genome
    alone. *)
Theorem presence_has_exclusive_hash manifest sample_file sample_sig gdir covs
    scale ksize significance ani_thresh num_threads tables i table j row :
  hypothesis_recovery manifest (sample_file, sample_sig) gdir covs scale ksize
    significance ani_thresh num_threads = Ok tables →
  tables !! i = Some table → table !! j = Some row →
  in_sample_est (test_columns row) = true →
  let cands := candidate_set manifest sample_file gdir scale ksize num_threads in
  ∃ h,
    h ∈ dict_keys (hashes (minhash sample_sig))
    ∧ h ∈ Exclusive.sketch_hashes load_signature_with_ksize gdir
            (md5sum (manifest_columns row)) ksize
    ∧ Exclusive.candidates_with load_signature_with_ksize h (md5sum <$> cands)
        ksize gdir = 1%nat.
Proof.
  intros Hrun Hi Hj Hest. cbn zeta.
  destruct (hypothesis_recovery_row _ _ _ _ _ _ _ _ _ _ _ _ _ _ _ Hrun Hi Hj)
    as (c & r & _ & _ & Hcols & Htest).
  cbn zeta in Htest. rewrite Hcols. cbn [md5sum set_min_coverage].
  pose proof (present_has_match betaincinv float_pow _ _ _ _ _ _ _ Htest Hest) as Hm.
  set (ex := Exclusive.find_exclusive_hashes _ _ _ _ _) in Hm.
  destruct (set_choose_L (ex ∩ list_to_set (dict_keys (hashes (minhash sample_sig)))))
    as [h Hh].
  { intros Hempty. apply Hm. by rewrite Hempty, size_empty. }
  apply elem_of_intersection in Hh as [Hex Hsample].
  apply find_exclusive_hashes_elem in Hex as [Hsketch Hsingle].
  apply first_pass_single in Hsingle. apply elem_of_list_to_set in Hsample.
  by exists h.
Qed.

(** X17: in every row of every table,
    [0 <= num_matches <= num_exclusive_kmers_to_genome], the exclusive count
    is at most the size of the genome's sketch and the match count at most
    the size of the sample's sketch. *)
Theorem hypothesis_recovery_row_counts manifest sample_file sample_sig gdir covs
    scale ksize significance ani_thresh num_threads tables i table j row :
  hypothesis_recovery manifest (sample_file, sample_sig) gdir covs scale ksize
    significance ani_thresh num_threads = Ok tables →
  tables !! i = Some table → table !! j = Some row →
  0 ≤ num_matches (test_columns row) ≤ num_exclusive_kmers_to_genome (test_columns row)
  ∧ num_exclusive_kmers_to_genome (test_columns row)
    ≤ Z.of_nat (length (Exclusive.sketch_hashes load_signature_with_ksize gdir
                          (md5sum (manifest_columns row)) ksize))
  ∧ num_matches (test_columns row)
    ≤ Z.of_nat (length (dict_keys (hashes (minhash sample_sig)))).
Proof.
  intros Hrun Hi Hj.
  destruct (hypothesis_recovery_row _ _ _ _ _ _ _ _ _ _ _ _ _ _ _ Hrun Hi Hj)
    as (c & r & _ & _ & Hcols & Htest).
  cbn zeta in Htest. rewrite Hcols. cbn [md5sum set_min_coverage].
  destruct (single_hyp_test_inv betaincinv float_pow _ _ _ _ _ _ _ Htest)
    as (p & n_c & _ & _ & _ & _ & _ & -> & _ & -> & _).
  set (ex := Exclusive.find_exclusive_hashes _ _ _ _ _).
  set (sample := list_to_set _).
  split; [split; [lia|]|split].
  - apply Nat2Z.inj_le, subseteq_size, intersection_subseteq_l.
  - apply Nat2Z.inj_le, find_exclusive_hashes_size.
  - apply Nat2Z.inj_le.
    etransitivity; [apply (subseteq_size _ sample), intersection_subseteq_r|].
    unfold sample. rewrite size_list_to_set by apply NoDup_dict_keys. done.
Qed.

(** X18: when the external search exits with a non-zero status the run
    raises [ValueError], whatever the other arguments; no sketch is read and
    no test is run. *)
Theorem hypothesis_recovery_tool_failure manifest sample_file sample_sig gdir covs
    scale ksize significance ani_thresh num_threads :
  (search_outcome manifest sample_file gdir scale ksize num_threads).1 ≠ 0 →
  hypothesis_recovery manifest (sample_file, sample_sig) gdir covs scale ksize
    significance ani_thresh num_threads = Raise ValueError.
Proof.
  intros Hexit. rewrite hypothesis_recovery_stages. by rewrite decide_True.
Qed.

(** X19: with fewer than one worker and a search that succeeds, the run
    raises [ValueError] in the first round of the sweep; with no coverage
    value there is no round, and the run returns no table. *)
Theorem hypothesis_recovery_no_workers manifest sample_file sample_sig gdir covs
    scale ksize significance ani_thresh num_threads :
  (search_outcome manifest sample_file gdir scale ksize num_threads).1 = 0 →
  num_threads < 1 →
  hypothesis_recovery manifest (sample_file, sample_sig) gdir covs scale ksize
    significance ani_thresh num_threads
  = match covs with [] => Ok [] | _ :: _ => Raise ValueError end.
Proof.
  intros Hexit Hlt. rewrite hypothesis_recovery_stages.
  rewrite decide_False by (intros Hne; apply Hne, Hexit).
  destruct covs as [|c covs]; [done|].
  cbn [starmap]. unfold Sweep.coverage_table. by rewrite decide_True.
Qed.

(** X20: when no manifest row is named by the search result, the run
    returns one empty table per coverage value and runs no test: neither a
    k-mer size of zero nor a coverage that is nan makes it raise. *)
Theorem hypothesis_recovery_no_candidates manifest sample_file sample_sig gdir covs
    scale ksize significance ani_thresh num_threads :
  (search_outcome manifest sample_file gdir scale ksize num_threads).1 = 0 →
  1 ≤ num_threads →
  candidate_set manifest sample_file gdir scale ksize num_threads = [] →
  hypothesis_recovery manifest (sample_file, sample_sig) gdir covs scale ksize
    significance ani_thresh num_threads
  = Ok (replicate (length covs) []).
Proof.
  intros Hexit Ht Hnone. rewrite hypothesis_recovery_stages.
  rewrite decide_False by (intros Hne; apply Hne, Hexit).
  rewrite exclusive_info_eq. cbn zeta. rewrite Hnone. cbn [fmap list_fmap].
  induction covs as [|c covs IH]; [done|].
  cbn [starmap length replicate]. rewrite IH.
  unfold Sweep.coverage_table. rewrite decide_False by lia. done.
Qed.

(** X21: the candidates of a run are manifest rows, in manifest order; a
    manifest row is a candidate exactly when its organism name is the match
    name of some row of the search result. *)
Theorem candidate_set_spec manifest sample_file gdir scale ksize num_threads :
  (search_outcome manifest sample_file gdir scale ksize num_threads).1 = 0 →
  let cands := candidate_set manifest sample_file gdir scale ksize num_threads in
  cands `sublist_of` manifest
  ∧ ∀ r, r ∈ cands
         ↔ r ∈ manifest
           ∧ ∃ hit, hit ∈ (search_outcome manifest sample_file gdir scale ksize
                             num_threads).2
                    ∧ match_name hit = organism_name r.
Proof.
  intros Hexit. cbn zeta. unfold Sweep.candidate_set.
  rewrite get_organisms_with_nonzero_overlap_eq. cbn zeta.
  fold (search_outcome manifest sample_file gdir scale ksize num_threads).
  rewrite decide_False by (intros Hne; apply Hne, Hexit).
  unfold Exclusive.sub_manifest_of. split; [apply sublist_filter|].
  intros r. rewrite list_elem_of_filter, list_elem_of_fmap.
  split.
  - intros [(hit & Hname & Hhit) Hr]. split; [done|].
    rewrite elem_of_drop_duplicates in Hhit. exists hit. split; [exact Hhit|by symmetry].
  - intros [Hr (hit & Hhit & Hname)]. split; [|done].
    exists hit. split; [by symmetry|]. by rewrite elem_of_drop_duplicates.
Qed.

Lemma coverage_table_nan infos man ksize significance ani_thresh num_threads :
  1 ≤ num_threads → 0 ≤ ksize → infos ≠ [] →
  coverage_table infos man ksize significance ani_thresh num_threads NaN
  = Raise ValueError.
Proof.
  intros Ht Hk Hne. unfold Sweep.coverage_table. rewrite decide_False by lia.
  destruct infos as [|[n m] infos]; [done|]. cbn [starmap].
  by rewrite (single_hyp_test_nan_coverage betaincinv float_pow).
Qed.

Lemma coverage_table_ksize_zero infos man significance ani_thresh num_threads (c : Q) :
  1 ≤ num_threads → infos ≠ [] →
  coverage_table infos man 0 significance ani_thresh num_threads (Finite c)
  = Raise ZeroDivisionError.
Proof.
  intros Ht Hne. unfold Sweep.coverage_table. rewrite decide_False by lia.
  destruct infos as [|[n m] infos]; [done|]. cbn [starmap].
  by rewrite (single_hyp_test_raises_at_zero betaincinv float_pow).
Qed.

Lemma coverage_table_number infos man ksize significance ani_thresh num_threads
    (c : Q) :
  1 ≤ num_threads → 1 ≤ ksize →
  ∃ table,
    coverage_table infos man ksize significance ani_thresh num_threads (Finite c)
    = Ok table.
Proof.
  intros Ht Hk. unfold Sweep.coverage_table. rewrite decide_False by lia.
  destruct (starmap_ok
    (λ info, single_hyp_test info ksize significance ani_thresh (Finite c)) infos)
    as (results & -> & _).
  { intros [n m] _.
    destruct (single_hyp_test_ok betaincinv float_pow n m ksize significance
                ani_thresh c Hk) as (r & Hr & _). by exists r. }
  by eexists.
Qed.

Lemma exclusive_info_nonempty manifest sample_file sample_sig gdir scale ksize
    num_threads :
  candidate_set manifest sample_file gdir scale ksize num_threads ≠ [] →
  exclusive_info manifest sample_file sample_sig gdir scale ksize num_threads ≠ [].
Proof.
  intros Hne Hnil. rewrite exclusive_info_eq in Hnil. cbn zeta in Hnil.
  by apply fmap_nil_inv in Hnil.
Qed.

(** X22: with coverage values that are nan or in (0,1], significance
    and ANI threshold in (0,1) and a k-mer size of at least one, a coverage
    value that is nan makes the whole run raise [ValueError] as soon as
    there is a candidate genome: the tables of the coverage values before it
    are not returned. *)
Theorem hypothesis_recovery_nan_coverage manifest sample_file sample_sig gdir covs
    scale ksize (s a : Q) num_threads i :
  (search_outcome manifest sample_file gdir scale ksize num_threads).1 = 0 →
  1 ≤ num_threads → 1 ≤ ksize →
  (0 < s)%Q → (s < 1)%Q → (0 < a)%Q → (a < 1)%Q →
  candidate_set manifest sample_file gdir scale ksize num_threads ≠ [] →
  Forall (λ c, c = NaN ∨ coverage_fraction c) covs →
  covs !! i = Some NaN →
  hypothesis_recovery manifest (sample_file, sample_sig) gdir covs scale ksize
    (Finite s) (Finite a) num_threads = Raise ValueError.
Proof.
  intros Hexit Ht Hk _ _ _ _ Hne _ Hnan. rewrite hypothesis_recovery_stages.
  rewrite decide_False by (intros Hx; apply Hx, Hexit).
  apply (exclusive_info_nonempty _ _ sample_sig) in Hne.
  revert i Hnan. induction covs as [|c covs IH]; intros i Hnan; [done|].
  cbn [starmap]. destruct c as [c|].
  - destruct (coverage_table_number
                (exclusive_info manifest sample_file sample_sig gdir scale ksize
                   num_threads)
                (candidate_set manifest sample_file gdir scale ksize num_threads)
                ksize (Finite s) (Finite a) num_threads c Ht Hk) as [table ->].
    cbn [mbind result_bind]. destruct i as [|i]; [done|].
    by rewrite (IH i Hnan).
  - by rewrite coverage_table_nan by (done || lia).
Qed.

(** X23: with a k-mer size of zero, at least one candidate genome,
    significance and ANI threshold in (0,1) and a first coverage value that
    is nan or in (0,1], the run raises in its first round: [ValueError]
    when the first coverage value is nan, [ZeroDivisionError] otherwise. *)
Theorem hypothesis_recovery_ksize_zero manifest sample_file sample_sig gdir c covs
    scale (s a : Q) num_threads :
  (search_outcome manifest sample_file gdir scale 0 num_threads).1 = 0 →
  1 ≤ num_threads →
  (0 < s)%Q → (s < 1)%Q → (0 < a)%Q → (a < 1)%Q →
  candidate_set manifest sample_file gdir scale 0 num_threads ≠ [] →
  c = NaN ∨ coverage_fraction c →
  hypothesis_recovery manifest (sample_file, sample_sig) gdir (c :: covs) scale 0
    (Finite s) (Finite a) num_threads
  = Raise (if Py.isnan c then ValueError else ZeroDivisionError).
Proof.
  intros Hexit Ht _ _ _ _ Hne _. rewrite hypothesis_recovery_stages.
  rewrite decide_False by (intros Hx; apply Hx, Hexit).
  apply (exclusive_info_nonempty _ _ sample_sig) in Hne.
  cbn [starmap]. destruct c as [c|]; cbn [Py.isnan].
  - by rewrite coverage_table_ksize_zero.
  - by rewrite coverage_table_nan by (done || lia).
Qed.

End sweep_more.

Section sweep_more_runs.

Import Sweep.

(** The demo run: genomes A, B, C, of which the search names A and C; ANI
    threshold 0.99, k = 2, significance 0.99, four workers. *)
Local Abbreviation run tool covs ksize num_threads :=
  (Sweep.hypothesis_recovery Demo.load Numeric.betaincinv Numeric.float_pow
     Tool.zip_signature_files tool Demo.manifest ("s.sig.zip"%string, Demo.sample)
     "g" covs 1000 ksize (Finite (99 # 100)) (Finite (99 # 100)) num_threads).

Local Abbreviation candidates tool :=
  (Sweep.candidate_set Tool.zip_signature_files tool Demo.manifest "s.sig.zip" "g"
     1000 2 4).

Local Abbreviation outcome tool num_threads :=
  (Sweep.search_outcome Tool.zip_signature_files tool Demo.manifest "s.sig.zip" "g"
     1000 2 num_threads).

Lemma get_organisms_with_nonzero_overlap_order_witness :
  let table := [Tool.hit "q1" "A"; Tool.hit "q1" "C"; Tool.hit "q1" "A"] in
  ∃ names,
    Prefilter.get_organisms_with_nonzero_overlap Tool.zip_signature_files
      Tool.sourmash_multisearch_single Demo.manifest "s.sig.zip" 1000 31 4 "g" "tmp"
    = Ok names
    ∧ names `sublist_of` (match_name <$> table)
    ∧ head names = match_name <$> head table
    ∧ (NoDup table → names = match_name <$> table).
Proof.
  eexists. split; [vm_compute; reflexivity|].
  apply (get_organisms_with_nonzero_overlap_order Tool.zip_signature_files
           Tool.sourmash_multisearch_single Demo.manifest "s.sig.zip" 1000 31 4 "g" "tmp").
  vm_compute. reflexivity.
Defined.

Lemma hypothesis_recovery_rows_witness :
  let covs := [Finite 1; Finite (1 # 2)] in
  let cands := candidates Tool.sourmash_multisearch_single in
  let infos :=
    Sweep.exclusive_info Demo.load Tool.zip_signature_files
      Tool.sourmash_multisearch_single Demo.manifest "s.sig.zip" Demo.sample "g"
      1000 2 4 in
  ∃ tables,
    run Tool.sourmash_multisearch_single covs 2 4 = Ok tables
    ∧ length tables = length covs
    ∧ length infos = length cands
    ∧ ∀ i table, tables !! i = Some table →
        length table = length cands
        ∧ ∀ j row, table !! j = Some row →
            ∃ c r info,
              covs !! i = Some c ∧ cands !! j = Some r ∧ infos !! j = Some info
              ∧ manifest_columns row = set_min_coverage c r
              ∧ Tester.single_hyp_test Numeric.betaincinv Numeric.float_pow info 2
                  (Finite (99 # 100)) (Finite (99 # 100)) c
                = Ok (test_columns row).
Proof.
  eexists. split; [vm_compute; reflexivity|].
  apply (hypothesis_recovery_rows Demo.load Numeric.betaincinv Numeric.float_pow
           Tool.zip_signature_files Tool.sourmash_multisearch_single Demo.manifest
           "s.sig.zip" Demo.sample "g" [Finite 1; Finite (1 # 2)] 1000 2
           (Finite (99 # 100)) (Finite (99 # 100)) 4).
  vm_compute. reflexivity.
Defined.

Lemma hypothesis_recovery_rounds_independent_witness :
  ∃ tables,
    run Tool.sourmash_multisearch_single [Finite 1; Finite (1 # 2)] 2 4 = Ok tables
    ∧ Forall2 (λ c table, run Tool.sourmash_multisearch_single [c] 2 4 = Ok [table])
              [Finite 1; Finite (1 # 2)] tables.
Proof.
  eexists. split; [vm_compute; reflexivity|].
  apply (hypothesis_recovery_rounds_independent Demo.load Numeric.betaincinv
           Numeric.float_pow Tool.zip_signature_files Tool.sourmash_multisearch_single
           Demo.manifest "s.sig.zip" Demo.sample "g" [Finite 1; Finite (1 # 2)] 1000 2
           (Finite (99 # 100)) (Finite (99 # 100)) 4).
  vm_compute. reflexivity.
Defined.

(** Genome A is reported present at full coverage: the sample holds the
    hashes 1 and 2, which only A has. *)
Lemma presence_has_exclusive_hash_witness :
  ∃ tables table row,
    run Tool.sourmash_multisearch_single [Finite 1; Finite (1 # 2)] 2 4 = Ok tables
    ∧ tables !! 0%nat = Some table ∧ table !! 0%nat = Some row
    ∧ in_sample_est (test_columns row) = true
    ∧ ∃ h,
        h ∈ dict_keys (hashes (minhash Demo.sample))
        ∧ h ∈ Exclusive.sketch_hashes Demo.load "g" (md5sum (manifest_columns row)) 2
        ∧ Exclusive.candidates_with Demo.load h
            (md5sum <$> candidates Tool.sourmash_multisearch_single) 2 "g" = 1%nat.
Proof.
  eexists _, _, _. split; [vm_compute; reflexivity|].
  split; [reflexivity|]. split; [reflexivity|]. split; [reflexivity|].
  eapply (presence_has_exclusive_hash Demo.load Numeric.betaincinv Numeric.float_pow
            Tool.zip_signature_files Tool.sourmash_multisearch_single Demo.manifest
            "s.sig.zip" Demo.sample "g" [Finite 1; Finite (1 # 2)] 1000 2
            (Finite (99 # 100)) (Finite (99 # 100)) 4 _ 0 _ 0);
    [vm_compute; reflexivity|reflexivity|reflexivity|reflexivity].
Defined.

Lemma hypothesis_recovery_row_counts_witness :
  ∃ tables table row,
    run Tool.sourmash_multisearch_single [Finite 1; Finite (1 # 2)] 2 4 = Ok tables
    ∧ tables !! 1%nat = Some table ∧ table !! 1%nat = Some row
    ∧ 0 ≤ num_matches (test_columns row)
        ≤ num_exclusive_kmers_to_genome (test_columns row)
    ∧ num_exclusive_kmers_to_genome (test_columns row)
      ≤ Z.of_nat (length (Exclusive.sketch_hashes Demo.load "g"
                            (md5sum (manifest_columns row)) 2))
    ∧ num_matches (test_columns row)
      ≤ Z.of_nat (length (dict_keys (hashes (minhash Demo.sample)))).
Proof.
  eexists _, _, _. split; [vm_compute; reflexivity|].
  split; [reflexivity|]. split; [reflexivity|].
  eapply (hypothesis_recovery_row_counts Demo.load Numeric.betaincinv Numeric.float_pow
            Tool.zip_signature_files Tool.sourmash_multisearch_single Demo.manifest
            "s.sig.zip" Demo.sample "g" [Finite 1; Finite (1 # 2)] 1000 2
            (Finite (99 # 100)) (Finite (99 # 100)) 4 _ 1 _ 1);
    [vm_compute; reflexivity|reflexivity|reflexivity].
Defined.

Lemma hypothesis_recovery_tool_failure_witness :
  run Tool.sourmash_multisearch_failing [Finite 1; Finite (1 # 2)] 2 4
  = Raise ValueError.
Proof.
  apply (hypothesis_recovery_tool_failure Demo.load Numeric.betaincinv
           Numeric.float_pow Tool.zip_signature_files Tool.sourmash_multisearch_failing).
  vm_compute. discriminate.
Defined.

Lemma hypothesis_recovery_no_workers_witness :
  run Tool.sourmash_multisearch_single [Finite 1; Finite (1 # 2)] 2 0
  = Raise ValueError.
Proof.
  apply (hypothesis_recovery_no_workers Demo.load Numeric.betaincinv
           Numeric.float_pow Tool.zip_signature_files Tool.sourmash_multisearch_single
           Demo.manifest "s.sig.zip" Demo.sample "g" [Finite 1; Finite (1 # 2)]);
    [reflexivity|lia].
Defined.

(** No hit, a k-mer size of zero and a coverage that is nan: two empty
    tables. *)
Lemma hypothesis_recovery_no_candidates_witness :
  run Tool.sourmash_multisearch_no_hit [NaN; Finite 1] 0 4 = Ok [[]; []].
Proof.
  apply (hypothesis_recovery_no_candidates Demo.load Numeric.betaincinv
           Numeric.float_pow Tool.zip_signature_files Tool.sourmash_multisearch_no_hit
           Demo.manifest "s.sig.zip" Demo.sample "g" [NaN; Finite 1]);
    [reflexivity|lia|reflexivity].
Defined.

Lemma candidate_set_spec_witness :
  let cands := candidates Tool.sourmash_multisearch_single in
  cands `sublist_of` Demo.manifest
  ∧ ∀ r, r ∈ cands
         ↔ r ∈ Demo.manifest
           ∧ ∃ hit, hit ∈ (outcome Tool.sourmash_multisearch_single 4).2
                    ∧ match_name hit = organism_name r.
Proof.
  apply (candidate_set_spec Tool.zip_signature_files Tool.sourmash_multisearch_single
           Demo.manifest "s.sig.zip" "g" 1000 2 4).
  reflexivity.
Defined.

(** The table of coverage 1 is computed, then the nan raises. *)
Lemma hypothesis_recovery_nan_coverage_witness :
  run Tool.sourmash_multisearch_single [Finite 1; NaN] 2 4 = Raise ValueError.
Proof.
  apply (hypothesis_recovery_nan_coverage Demo.load Numeric.betaincinv
           Numeric.float_pow Tool.zip_signature_files Tool.sourmash_multisearch_single
           Demo.manifest "s.sig.zip" Demo.sample "g" [Finite 1; NaN] 1000 2
           (99 # 100) (99 # 100) 4 1);
    first [reflexivity | lia | by vm_compute | idtac].
  constructor; [right; split; reflexivity || (unfold Qle; cbn; lia)|].
  constructor; [by left|constructor].
Defined.

Lemma hypothesis_recovery_ksize_zero_witness :
  run Tool.sourmash_multisearch_single [Finite 1; Finite (1 # 2)] 0 4
  = Raise ZeroDivisionError.
Proof.
  apply (hypothesis_recovery_ksize_zero Demo.load Numeric.betaincinv
           Numeric.float_pow Tool.zip_signature_files Tool.sourmash_multisearch_single
           Demo.manifest "s.sig.zip" Demo.sample "g" (Finite 1) [Finite (1 # 2)]
           1000 (99 # 100) (99 # 100) 4);
    first [reflexivity | lia | by vm_compute | idtac].
  right. split; [reflexivity|unfold Qle; cbn; lia].
Defined.

End sweep_more_runs.
